(** * s3-bucket-info: a shallow embedding of [AWS-S3/s3-bucket-info.py]

    The script queries the configuration facets of one S3 bucket and prints
    them as YAML-like sections.  This development embeds, in source order,

    - the minimal YAML emitter ([_is_scalar], [_yaml_escape_str],
      [yaml_info], [print_section]);
    - the S3 helpers ([NOT_CONFIGURED_CODES], [classify_client_error],
      [find_bucket_in_listbuckets], [call_s3_getter], [parse_policy],
      [normalize_location]);
    - [main], over a small monad of output and exceptions,

    and proves the properties the specification states about them.

    Conventions.  A Python [str] is a Rocq [string]; a character is the
    code point of the same number, so the embedding covers the code points
    below 256 (Latin-1), with Python's [isspace] and [lower] tables cut to
    that range.  A Python [int] is a [Z].  A [dict] is an association list
    in insertion order.  Python [float] values are outside the embedding.
    A datetime is the pair of texts that [isoformat] and [str] give for it,
    and [json.loads], which the script calls but does not define, is a
    section variable. *)

From Stdlib Require Import String Ascii List ZArith NArith Bool Lia.
From Stdlib Require Import Numbers.DecimalString.
Import ListNotations.

Open Scope list_scope.
Open Scope string_scope.

#[local] Set Warnings "-register-all".

(* ------------------------------------------------------------------ *)
(** ** Python string primitives used by the script *)

Module PyStr.

Definition squote : ascii := "'"%char.
Definition dquote : ascii := "034"%char.
Definition newline : ascii := "010"%char.

(** A one-character [str]. *)
Definition chr (c : ascii) : string := String c EmptyString.

Definition nl : string := chr newline.

(** [str.isspace] on one character: the code points below 256 that
    CPython's [_PyUnicode_IsWhitespace] accepts. *)
Definition isspace (c : ascii) : bool :=
  let n := N_of_ascii c in
  ((9 <=? n) && (n <=? 13) || (28 <=? n) && (n <=? 32)
   || (n =? 133) || (n =? 160))%N.

(** [str.lower] on one character: A-Z and the Latin-1 capitals
    (U+00C0..U+00DE without the multiplication sign U+00D7). *)
Definition lower_char (c : ascii) : ascii :=
  let n := N_of_ascii c in
  if ((65 <=? n) && (n <=? 90)
      || (192 <=? n) && (n <=? 222) && negb (n =? 215))%N
  then ascii_of_N (n + 32) else c.

Fixpoint lower (s : string) : string :=
  match s with
  | EmptyString => EmptyString
  | String c r => String (lower_char c) (lower r)
  end.

Fixpoint lstrip (s : string) : string :=
  match s with
  | EmptyString => EmptyString
  | String c r => if isspace c then lstrip r else s
  end.

Fixpoint rstrip (s : string) : string :=
  match s with
  | EmptyString => EmptyString
  | String c r =>
      match rstrip r with
      | EmptyString => if isspace c then EmptyString else chr c
      | r' => String c r'
      end
  end.

(** [s.strip()]: whitespace removed at both ends. *)
Definition strip (s : string) : string := rstrip (lstrip s).

(** [s.startswith(p)]. *)
Fixpoint startswith (s p : string) {struct p} : bool :=
  match p with
  | EmptyString => true
  | String a p' =>
      match s with
      | EmptyString => false
      | String b s' => Ascii.eqb b a && startswith s' p'
      end
  end.

(** [sub in s] on two strings: substring search. *)
Fixpoint str_in (sub s : string) : bool :=
  startswith s sub
  || match s with
     | EmptyString => false
     | String _ r => str_in sub r
     end.

(** [s.replace(old, new)] for a one-character [old]. *)
Fixpoint replace (old : ascii) (new s : string) : string :=
  match s with
  | EmptyString => EmptyString
  | String c r =>
      if Ascii.eqb c old then new ++ replace old new r
      else String c (replace old new r)
  end.

(** [sep.join(lines)]. *)
Definition join (sep : string) (lines : list string) : string :=
  String.concat sep lines.

(** [" " * n]. *)
Fixpoint spaces (n : nat) : string :=
  match n with
  | O => EmptyString
  | S k => String " " (spaces k)
  end.

(** [str(n)] for an [int]. *)
Definition str_int (z : Z) : string := NilZero.string_of_int (Z.to_int z).

(** [x in xs] for a [str] and a set or list of [str]. *)
Definition mem (x : string) (xs : list string) : bool :=
  existsb (String.eqb x) xs.

End PyStr.
Import PyStr.

(* ------------------------------------------------------------------ *)
(** ** Minimal YAML emitter: quoting of strings *)

Definition special_chars : list string :=
  [":"; "{"; "}"; "["; "]"; ","; "#"; "&"; "*"; "!"; "|"; ">"; "%"; "@"; "`"].

Definition reserved_words : list string :=
  ["null"; "true"; "false"; "yes"; "no"; "on"; "off"].

Definition quote_prefixes : list string :=
  ["~"; "="; "<"; ">"; chr dquote; chr squote].

(** The [needs_quotes] expression of [_yaml_escape_str].  Python's [or]
    is lazy: [s[0]] is only reached when [s] is not empty. *)
Definition needs_quotes (s : string) : bool :=
  (s =? EmptyString)
  || negb (strip s =? s)
  || existsb (fun c => str_in c s) special_chars
  || str_in nl s
  || mem (lower s) reserved_words
  || match s with
     | EmptyString => true
     | String s0 _ =>
         str_in (chr s0) "-?@"
         || existsb (startswith s) quote_prefixes
     end.

Definition _yaml_escape_str (s : string) : string :=
  if negb (needs_quotes s) then s
  else chr squote ++ replace squote "''" s ++ chr squote.


(** The quoting rule as the specification words it, trigger by trigger,
    on characters rather than on substrings. *)

Definition has_char (c : ascii) (s : string) : bool :=
  existsb (Ascii.eqb c) (list_ascii_of_string s).

Definition first_char (s : string) : option ascii :=
  match s with
  | EmptyString => None
  | String c _ => Some c
  end.

Fixpoint last_char (s : string) : option ascii :=
  match s with
  | EmptyString => None
  | String c EmptyString => Some c
  | String _ r => last_char r
  end.

Definition is_space_opt (o : option ascii) : bool :=
  match o with
  | Some c => isspace c
  | None => false
  end.

Definition starts_with_one_of (cs : list ascii) (s : string) : bool :=
  match first_char s with
  | Some c => existsb (Ascii.eqb c) cs
  | None => false
  end.

(** Equality up to letter case. *)
Definition ci_eqb (a b : string) : bool := lower a =? lower b.

Definition trigger_chars : list ascii :=
  [":"; "{"; "}"; "["; "]"; ","; "#"; "&"; "*"; "!"; "|"; ">"; "%"; "@";
   "`"]%char.

Definition trigger_first_chars : list ascii :=
  (["-"; "?"; "@"; "~"; "="; "<"; ">"]%char ++ [dquote; squote])%list.

Definition quoting_triggered (s : string) : bool :=
  (s =? EmptyString)
  || is_space_opt (first_char s) || is_space_opt (last_char s)
  || existsb (fun c => has_char c s) trigger_chars
  || has_char newline s
  || existsb (ci_eqb s) reserved_words
  || starts_with_one_of trigger_first_chars s.

(** Wrapping in single quotes with every embedded single quote doubled. *)
Fixpoint double_squotes (s : string) : string :=
  match s with
  | EmptyString => EmptyString
  | String c r =>
      if Ascii.eqb c squote then String squote (String squote (double_squotes r))
      else String c (double_squotes r)
  end.

Definition single_quoted (s : string) : string :=
  String squote (double_squotes s ++ chr squote).

(** Reading a single-quoted scalar back: drop the outer quotes, then turn
    every doubled quote into one. *)
Fixpoint drop_closing_quote (s : string) : option string :=
  match s with
  | EmptyString => None
  | String c EmptyString => if Ascii.eqb c squote then Some EmptyString else None
  | String c r => option_map (String c) (drop_closing_quote r)
  end.

Definition strip_outer_quotes (s : string) : option string :=
  match s with
  | EmptyString => None
  | String c r => if Ascii.eqb c squote then drop_closing_quote r else None
  end.

Fixpoint undouble_squotes (s : string) : string :=
  match s with
  | EmptyString => EmptyString
  | String c r =>
      if Ascii.eqb c squote then
        match r with
        | String c' r' =>
            if Ascii.eqb c' squote then String squote (undouble_squotes r')
            else String c (undouble_squotes r)
        | EmptyString => chr c
        end
      else String c (undouble_squotes r)
  end.

Definition unquote (s : string) : option string :=
  option_map undouble_squotes (strip_outer_quotes s).

(* ------------------------------------------------------------------ *)
(** ** Output and exceptions *)

(** How a piece of the script ends: with a value, or with an exception that
    no handler of the script catches. *)
Inductive outcome (A : Type) : Type :=
| Done (a : A)
| Uncaught.
Arguments Done {A} a.
Arguments Uncaught {A}.

(** A computation that prints: standard output is threaded as the list of
    the texts given to [print], oldest first. *)
Definition IO (A : Type) : Type := list string -> list string * outcome A.

Definition ret {A : Type} (a : A) : IO A := fun out => (out, Done a).

Definition raise {A : Type} : IO A := fun out => (out, Uncaught).

Definition bind {A B : Type} (m : IO A) (k : A -> IO B) : IO B :=
  fun out =>
    match m out with
    | (out', Done a) => k a out'
    | (out', Uncaught) => (out', Uncaught)
    end.

Definition lift {A : Type} (o : outcome A) : IO A := fun out => (out, o).

Definition print (line : string) : IO unit := fun out => ((out ++ [line])%list, Done tt).

Notation "x <- m ;; k" := (bind m (fun x => k))
  (at level 61, m at next level, right associativity).
Notation "m ;; k" := (bind m (fun _ => k))
  (at level 61, right associativity).

(** [for x in xs: body(x)]. *)
Fixpoint for_each {A : Type} (xs : list A) (body : A -> IO unit) : IO unit :=
  match xs with
  | [] => ret tt
  | x :: rest => body x ;; for_each rest body
  end.

(** The status the process exits with: [raise SystemExit(main())], or 1
    after a traceback. *)
Definition exit_status (r : outcome Z) : Z :=
  match r with
  | Done n => n
  | Uncaught => 1%Z
  end.

(* ------------------------------------------------------------------ *)
(** ** Provider errors *)

(** A [botocore] [ClientError], by what the script reads from it: the
    optional [Error.Code] and [Error.Message] and the optional
    [ResponseMetadata.HTTPStatusCode] of [err.response], and [str(err)]. *)
Record ClientError : Type := {
  error_code : option string;
  error_message : option string;
  http_status_code : option Z;
  str_err : string
}.

Definition NOT_CONFIGURED_CODES : list string :=
  [ "NoSuchBucket";
    "NoSuchTagSet";
    "NoSuchLifecycleConfiguration";
    "NoSuchPublicAccessBlockConfiguration";
    "NoSuchBucketPolicy";
    "NoSuchBucketLoggingStatus";
    "NoSuchReplicationConfiguration";
    "NoSuchEncryptionConfiguration";
    "NoSuchWebsiteConfiguration";
    "NoSuchCORSConfiguration";
    "NoSuchOwnershipControls";
    "NoSuchAccelerateConfiguration";
    "NoSuchRequestPaymentConfiguration";
    "ServerSideEncryptionConfigurationNotFoundError";
    "NotFound" ].

(** [.get("Code", "Unknown")] and [.get("Message", str(err))]. *)
Definition code_of (err : ClientError) : string :=
  match error_code err with
  | Some c => c
  | None => "Unknown"
  end.

Definition msg_of (err : ClientError) : string :=
  match error_message err with
  | Some m => m
  | None => str_err err
  end.

(** [status == 404], where [status] is [None] when the field is absent. *)
Definition status_is_404 (err : ClientError) : bool :=
  match http_status_code err with
  | Some n => (n =? 404)%Z
  | None => false
  end.

Definition classify_client_error (err : ClientError) : string * string :=
  let code := code_of err in
  let msg := msg_of err in
  if mem code NOT_CONFIGURED_CODES || status_is_404 err
  then ("not configured", (code ++ ": " ++ msg)%string)
  else ("error", (code ++ ": " ++ msg)%string).

(* ------------------------------------------------------------------ *)
(** ** Values, the emitter and the S3 helpers *)

(** A [datetime.datetime] object, by the two texts the script can ask of
    it: [d.isoformat()] and [str(d)]. *)
Record datetime : Type := {
  isoformat : string;
  str_datetime : string
}.

(** What a provider response or a decoded policy is made of.  A datetime is
    the one kind of object the emitter meets that is neither a scalar, a
    list nor a dict. *)
Inductive value : Type :=
| VNone
| VBool (b : bool)
| VInt (n : Z)
| VStr (s : string)
| VList (items : list value)
| VDict (items : list (string * value))
| VDatetime (d : datetime).

Definition dict : Type := list (string * value).

Fixpoint lookup (d : dict) (k : string) : option value :=
  match d with
  | [] => None
  | (k', v) :: rest => if k' =? k then Some v else lookup rest k
  end.

(** [d.get(k, default)]; [d.get(k)] is [get d k VNone]. *)
Definition get (d : dict) (k : string) (default : value) : value :=
  match lookup d k with
  | Some v => v
  | None => default
  end.

(** [d[k] = v]: the key keeps its place, a new key goes last. *)
Fixpoint dict_set (d : dict) (k : string) (v : value) : dict :=
  match d with
  | [] => [(k, v)]
  | (k', v') :: rest =>
      if k' =? k then (k', v) :: rest else (k', v') :: dict_set rest k v
  end.

(** Truth value of an object, as [if x] and [not x] test it. *)
Definition truthy (v : value) : bool :=
  match v with
  | VNone => false
  | VBool b => b
  | VInt n => negb (n =? 0)%Z
  | VStr s => negb (s =? EmptyString)
  | VList items => negb (Nat.eqb (List.length items) 0)
  | VDict items => negb (Nat.eqb (List.length items) 0)
  | VDatetime _ => true
  end.

(** [v == s] for a [str] [s]. *)
Definition eq_str (v : value) (s : string) : bool :=
  match v with
  | VStr s' => s' =? s
  | _ => false
  end.

Definition _is_scalar (x : value) : bool :=
  match x with
  | VNone | VStr _ | VInt _ | VBool _ => true
  | VList _ | VDict _ | VDatetime _ => false
  end.

Fixpoint yaml_info (obj : value) (indent : nat) : string :=
  let sp := spaces indent in
  match obj with
  | VNone => "null"
  | VBool b => if b then "true" else "false"
  | VInt n => str_int n
  | VStr s => _yaml_escape_str s
  | VList [] => "[]"
  | VList items =>
      join nl
        (map (fun item =>
                if _is_scalar item
                then sp ++ "- " ++ yaml_info item 0
                else sp ++ "- " ++ yaml_info item (indent + 2))
             items)
  | VDict [] => "{}"
  | VDict items =>
      join nl
        (flat_map (fun kv =>
                     let key := fst kv in
                     let v := snd kv in
                     if _is_scalar v
                     then [sp ++ key ++ ": " ++ yaml_info v 0]
                     else [sp ++ key ++ ":"; yaml_info v (indent + 2)])
                  items)
  | VDatetime d => _yaml_escape_str (str_datetime d)
  end.

Definition print_section (title : string) (content : value) : IO unit :=
  print "----" ;;
  print (title ++ ":") ;;
  let yaml_output := yaml_info content 2 in
  print (if negb (yaml_output =? EmptyString) then yaml_output else "  {}").

(** How one provider call ends: it returns its response, raises a
    [ClientError], or raises something else. *)
Inductive call_result : Type :=
| Returns (resp : dict)
| RaisesClientError (e : ClientError)
| RaisesOther.

(** The [sts] and [s3] clients of one run.  The script makes each call
    once, so a client is the result of each of its calls. *)
Record StsClient : Type := {
  get_caller_identity : call_result
}.

Record S3Client : Type := {
  list_buckets : call_result;
  get_bucket_location : string -> call_result;
  get_bucket_versioning : string -> call_result;
  get_bucket_encryption : string -> call_result;
  get_public_access_block : string -> call_result;
  get_bucket_policy : string -> call_result;
  get_bucket_logging : string -> call_result;
  get_bucket_tagging : string -> call_result;
  get_bucket_lifecycle_configuration : string -> call_result;
  get_bucket_acl : string -> call_result;
  get_bucket_policy_status : string -> call_result;
  get_bucket_ownership_controls : string -> call_result;
  get_bucket_cors : string -> call_result;
  get_bucket_website : string -> call_result;
  get_bucket_replication : string -> call_result;
  get_bucket_accelerate_configuration : string -> call_result;
  get_bucket_request_payment : string -> call_result;
  get_object_lock_configuration : string -> call_result
}.

(** [get_bucket_creation_date]: the whole [ListBuckets] response, as the
    call gives it. *)
Definition get_bucket_creation_date (s3 : S3Client) : call_result :=
  list_buckets s3.

(** The body of the [for b in ...] loop of [find_bucket_in_listbuckets],
    over the entries still to visit.  [b.get] on an entry that is not a
    dict raises [AttributeError]. *)
Fixpoint find_bucket_loop (bs : list value) (bucket : string)
  : outcome (option dict) :=
  match bs with
  | [] => Done None
  | VDict b :: rest =>
      if eq_str (get b "Name" VNone) bucket then
        let cd := get b "CreationDate" VNone in
        match cd with
        | VDatetime d => Done (Some (dict_set b "CreationDate" (VStr (isoformat d))))
        | _ => Done (Some b)
        end
      else find_bucket_loop rest bucket
  | _ :: _ => Uncaught
  end.

(** Iterating a [str] yields its characters and iterating a [dict] its
    keys, all of them [str]; the other objects are not iterable. *)
Definition find_bucket_in_listbuckets (resp : dict) (bucket : string)
  : outcome (option dict) :=
  match get resp "Buckets" (VList []) with
  | VList bs => find_bucket_loop bs bucket
  | VStr s => find_bucket_loop (map (fun c => VStr (chr c)) (list_ascii_of_string s)) bucket
  | VDict d => find_bucket_loop (map (fun kv => VStr (fst kv)) d) bucket
  | VNone | VBool _ | VInt _ | VDatetime _ => Uncaught
  end.

Definition call_s3_getter (title : string) (fn : unit -> call_result)
    (postprocess : option (dict -> value)) : outcome (string * value) :=
  match fn tt with
  | Returns data =>
      match postprocess with
      | Some post => Done ("ok", post data)
      | None => Done ("ok", VDict data)
      end
  | RaisesClientError e =>
      let (kind, message) := classify_client_error e in
      if kind =? "not configured"
      then Done ("not configured", VDict [("status", VStr "not configured")])
      else Done ("error", VDict [("status", VStr "error"); ("message", VStr message)])
  | RaisesOther => Uncaught
  end.

Section WithJson.

(** [json.loads] on a [str]: the decoded document, or [None] when the
    call raises.  The function belongs to Python's library, so the script
    is embedded for any such function. *)
Variable json_loads : string -> option value.

(** [json.loads(policy_str)]: [TypeError] on an object that is not a
    [str]. *)
Definition json_loads_obj (policy_str : value) : option value :=
  match policy_str with
  | VStr s => json_loads s
  | _ => None
  end.

Definition parse_policy (resp : dict) : value :=
  let policy_str := get resp "Policy" VNone in
  if negb (truthy policy_str) then VDict resp
  else
    match json_loads_obj policy_str with
    | Some decoded => decoded
    | None => VDict [("Policy", policy_str)]
    end.

Definition normalize_location (resp : dict) : value :=
  let lc := get resp "LocationConstraint" VNone in
  VDict [("LocationConstraint", if truthy lc then lc else VStr "us-east-1")].

(** The payload of an error-shaped section. *)
Definition error_payload (message : string) : value :=
  VDict [("status", VStr "error"); ("message", VStr message)].

(** [main], block by block.  First the [# Caller identity] block. *)
Definition main_caller_identity (sts : StsClient) : IO unit :=
  match get_caller_identity sts with
  | Returns ident => print_section "CallerIdentity" (VDict ident)
  | RaisesClientError e =>
      print_section "CallerIdentity" (error_payload (snd (classify_client_error e)))
  | RaisesOther => raise
  end.

(** The [# Creation date (ListBuckets)] block. *)
Definition main_creation (s3 : S3Client) (bucket : string) : IO unit :=
  match list_buckets s3 with
  | Returns lb =>
      binfo <- lift (find_bucket_in_listbuckets lb bucket) ;;
      match binfo with
      | None =>
          print_section "Creation"
            (error_payload ("Bucket not found in ListBuckets for name: " ++ bucket))
      | Some binfo =>
          if negb (truthy (VDict binfo)) then
            print_section "Creation"
              (error_payload ("Bucket not found in ListBuckets for name: " ++ bucket))
          else
            print_section "Creation"
              (VDict [("Name", get binfo "Name" VNone);
                      ("CreationDate", get binfo "CreationDate" VNone)])
      end
  | RaisesClientError e =>
      print_section "Creation" (error_payload (snd (classify_client_error e)))
  | RaisesOther => raise
  end.

(** The [getters] table. *)
Definition getters (s3 : S3Client) (bucket : string)
  : list (string * (unit -> call_result) * option (dict -> value)) :=
  [ ("Location", fun _ => get_bucket_location s3 bucket, Some normalize_location);
    ("Versioning", fun _ => get_bucket_versioning s3 bucket, None);
    ("Encryption", fun _ => get_bucket_encryption s3 bucket, None);
    ("PublicAccessBlock", fun _ => get_public_access_block s3 bucket, None);
    ("Policy", fun _ => get_bucket_policy s3 bucket, Some parse_policy);
    ("Logging", fun _ => get_bucket_logging s3 bucket, None);
    ("Tagging", fun _ => get_bucket_tagging s3 bucket, None);
    ("Lifecycle", fun _ => get_bucket_lifecycle_configuration s3 bucket, None);
    ("ACL", fun _ => get_bucket_acl s3 bucket, None);
    ("PolicyStatus", fun _ => get_bucket_policy_status s3 bucket, None);
    ("OwnershipControls", fun _ => get_bucket_ownership_controls s3 bucket, None);
    ("CORS", fun _ => get_bucket_cors s3 bucket, None);
    ("Website", fun _ => get_bucket_website s3 bucket, None);
    ("Replication", fun _ => get_bucket_replication s3 bucket, None);
    ("Accelerate", fun _ => get_bucket_accelerate_configuration s3 bucket, None);
    ("RequestPayment", fun _ => get_bucket_request_payment s3 bucket, None);
    ("ObjectLock", fun _ => get_object_lock_configuration s3 bucket, None) ].

(** The body of the final [for title, fn, post in getters] loop. *)
Definition main_getter_step
    (g : string * (unit -> call_result) * option (dict -> value)) : IO unit :=
  let '(title, fn, post) := g in
  r <- lift (call_s3_getter title fn post) ;;
  print_section title (snd r).

(** [main], from the parsed [bucket] argument and the two clients on. *)
Definition main (bucket : string) (sts : StsClient) (s3 : S3Client) : IO Z :=
  main_caller_identity sts ;;
  main_creation s3 bucket ;;
  for_each (getters s3 bucket) main_getter_step ;;
  ret 0%Z.

(** One run of the script: what it printed and its exit status. *)
Definition run (bucket : string) (sts : StsClient) (s3 : S3Client)
  : list string * Z :=
  let (out, r) := main bucket sts s3 [] in (out, exit_status r).

End WithJson.

(* ------------------------------------------------------------------ *)
(** ** Notions the statements below use *)

(** When the classifier answers "not configured". *)
Definition absent_facet (err : ClientError) : Prop :=
  In (code_of err) NOT_CONFIGURED_CODES \/ http_status_code err = Some 404%Z.

(** The three texts one section puts on standard output. *)
Definition section_text (title : string) (content : value) : list string :=
  ["----"; title ++ ":"; yaml_info content 2].

(** An entry of the enumeration that is a bucket of another name. *)
Definition other_bucket (bucket : string) (x : value) : Prop :=
  exists d, x = VDict d /\ lookup d "Name" <> Some (VStr bucket).

(** The enumeration has the shape the provider documents: [Buckets], when
    present, is a list of mappings. *)
Definition listing_well_formed (lb : dict) : Prop :=
  match get lb "Buckets" (VList []) with
  | VList bs => Forall (fun x => exists d, x = VDict d) bs
  | _ => False
  end.

(** The call of a facet ends as a provider call does: with a response or
    with a provider error. *)
Definition getter_ok (g : string * (unit -> call_result) * option (dict -> value))
  : Prop :=
  snd (fst g) tt <> RaisesOther.

(** The payload [call_s3_getter] hands to the printer for a facet. *)
Definition getter_payload
    (g : string * (unit -> call_result) * option (dict -> value)) : value :=
  match call_s3_getter (fst (fst g)) (snd (fst g)) (snd g) with
  | Done r => snd r
  | Uncaught => VNone
  end.

Definition getter_section
    (g : string * (unit -> call_result) * option (dict -> value)) : list string :=
  section_text (fst (fst g)) (getter_payload g).

(** A decimal digit, and a text made of decimal digits only. *)
Definition is_digit (c : ascii) : bool :=
  let n := N_of_ascii c in ((48 <=? n) && (n <=? 57))%N.

Definition digits_only (s : string) : bool :=
  forallb is_digit (list_ascii_of_string s).

(* ------------------------------------------------------------------ *)
(** ** A concrete run *)

Module Demo.

Definition created : datetime :=
  {| isoformat := "2024-03-05T09:30:00+00:00";
     str_datetime := "2024-03-05 09:30:00+00:00" |}.

(** A decoder that knows two documents and rejects every other text. *)
Definition loads (s : string) : option value :=
  if s =? "{}" then Some (VDict [])
  else if s =? "null" then Some VNone
  else None.

Definition access_denied : ClientError :=
  {| error_code := Some "AccessDenied";
     error_message := Some "Access Denied";
     http_status_code := Some 403%Z;
     str_err := "An error occurred (AccessDenied)" |}.

Definition no_tag_set : ClientError :=
  {| error_code := Some "NoSuchTagSet";
     error_message := Some "The TagSet does not exist";
     http_status_code := Some 404%Z;
     str_err := "An error occurred (NoSuchTagSet)" |}.

(** An error the code set does not know, with status 404. *)
Definition unlisted_404 : ClientError :=
  {| error_code := Some "ObjectLockConfigurationNotFoundError";
     error_message := Some "Object Lock configuration does not exist";
     http_status_code := Some 404%Z;
     str_err := "An error occurred (ObjectLockConfigurationNotFoundError)" |}.

Definition listing : dict :=
  [("Buckets",
    VList [VDict [("Name", VStr "logs"); ("CreationDate", VDatetime created)];
           VDict [("Name", VStr "my-bucket"); ("CreationDate", VDatetime created)]])].

Definition sts : StsClient :=
  {| get_caller_identity := Returns [("Account", VStr "123456789012")] |}.

Definition s3 : S3Client :=
  {| list_buckets := Returns listing;
     get_bucket_location := fun _ => Returns [("LocationConstraint", VNone)];
     get_bucket_versioning := fun _ => Returns [("Status", VStr "Enabled")];
     get_bucket_encryption := fun _ => RaisesClientError access_denied;
     get_public_access_block := fun _ => RaisesClientError access_denied;
     get_bucket_policy := fun _ => Returns [("Policy", VStr "{oops")];
     get_bucket_logging := fun _ => Returns [];
     get_bucket_tagging := fun _ => RaisesClientError no_tag_set;
     get_bucket_lifecycle_configuration := fun _ => RaisesClientError no_tag_set;
     get_bucket_acl := fun _ => RaisesClientError access_denied;
     get_bucket_policy_status := fun _ => RaisesClientError access_denied;
     get_bucket_ownership_controls := fun _ => RaisesClientError access_denied;
     get_bucket_cors := fun _ => RaisesClientError access_denied;
     get_bucket_website := fun _ => RaisesClientError access_denied;
     get_bucket_replication := fun _ => RaisesClientError access_denied;
     get_bucket_accelerate_configuration := fun _ => RaisesClientError access_denied;
     get_bucket_request_payment := fun _ => RaisesClientError access_denied;
     get_object_lock_configuration := fun _ => RaisesClientError unlisted_404 |}.

(** The same account when the enumeration fails with something that is
    not a provider error. *)
Definition s3_enumeration_crashes : S3Client :=
  {| list_buckets := RaisesOther;
     get_bucket_location := get_bucket_location s3;
     get_bucket_versioning := get_bucket_versioning s3;
     get_bucket_encryption := get_bucket_encryption s3;
     get_public_access_block := get_public_access_block s3;
     get_bucket_policy := get_bucket_policy s3;
     get_bucket_logging := get_bucket_logging s3;
     get_bucket_tagging := get_bucket_tagging s3;
     get_bucket_lifecycle_configuration := get_bucket_lifecycle_configuration s3;
     get_bucket_acl := get_bucket_acl s3;
     get_bucket_policy_status := get_bucket_policy_status s3;
     get_bucket_ownership_controls := get_bucket_ownership_controls s3;
     get_bucket_cors := get_bucket_cors s3;
     get_bucket_website := get_bucket_website s3;
     get_bucket_replication := get_bucket_replication s3;
     get_bucket_accelerate_configuration := get_bucket_accelerate_configuration s3;
     get_bucket_request_payment := get_bucket_request_payment s3;
     get_object_lock_configuration := get_object_lock_configuration s3 |}.

(** The same account when the call of the policy facet fails with
    something that is not a provider error. *)
Definition s3_policy_crashes : S3Client :=
  {| list_buckets := list_buckets s3;
     get_bucket_location := get_bucket_location s3;
     get_bucket_versioning := get_bucket_versioning s3;
     get_bucket_encryption := get_bucket_encryption s3;
     get_public_access_block := get_public_access_block s3;
     get_bucket_policy := fun _ => RaisesOther;
     get_bucket_logging := get_bucket_logging s3;
     get_bucket_tagging := get_bucket_tagging s3;
     get_bucket_lifecycle_configuration := get_bucket_lifecycle_configuration s3;
     get_bucket_acl := get_bucket_acl s3;
     get_bucket_policy_status := get_bucket_policy_status s3;
     get_bucket_ownership_controls := get_bucket_ownership_controls s3;
     get_bucket_cors := get_bucket_cors s3;
     get_bucket_website := get_bucket_website s3;
     get_bucket_replication := get_bucket_replication s3;
     get_bucket_accelerate_configuration := get_bucket_accelerate_configuration s3;
     get_bucket_request_payment := get_bucket_request_payment s3;
     get_object_lock_configuration := get_object_lock_configuration s3 |}.

End Demo.


(* ------------------------------------------------------------------ *)
(** ** The quoting rule *)

Lemma length_lstrip_le (s : string) : String.length (lstrip s) <= String.length s.
Proof.
  induction s as [|c r IH]; simpl; [lia|].
  destruct (isspace c); simpl; lia.
Qed.

Lemma length_rstrip_le (s : string) : String.length (rstrip s) <= String.length s.
Proof.
  induction s as [|c r IH]; simpl; [lia|].
  destruct (rstrip r) as [|c' r'] eqn:E; simpl in *.
  - destruct (isspace c); simpl; lia.
  - lia.
Qed.

Lemma rstrip_fixed (s : string) :
  (rstrip s =? s) = negb (is_space_opt (last_char s)).
Proof.
  induction s as [|c r IH]; [reflexivity|].
  destruct r as [|c' r'].
  - simpl. destruct (isspace c); simpl.
    + reflexivity.
    + now rewrite Ascii.eqb_refl.
  - change (last_char (String c (String c' r'))) with (last_char (String c' r')).
    rewrite <- IH.
    change (rstrip (String c (String c' r')))
      with (match rstrip (String c' r') with
            | EmptyString => if isspace c then EmptyString else chr c
            | r0 => String c r0
            end).
    destruct (rstrip (String c' r')) as [|c0 r0].
    + destruct (isspace c); simpl; [reflexivity|].
      now rewrite Ascii.eqb_refl.
    + simpl. now rewrite Ascii.eqb_refl.
Qed.

Lemma strip_changes (s : string) :
  negb (strip s =? s)
  = is_space_opt (first_char s) || is_space_opt (last_char s).
Proof.
  destruct s as [|c r]; [reflexivity|].
  unfold strip. simpl first_char. simpl is_space_opt at 1.
  destruct (isspace c) eqn:Hc.
  - simpl orb.
    apply negb_true_iff, String.eqb_neq. intros E.
    apply (f_equal String.length) in E.
    pose proof (length_rstrip_le (lstrip (String c r))) as H1.
    pose proof (length_lstrip_le r) as H2.
    simpl in E, H1. rewrite Hc in E, H1. simpl in E. lia.
  - simpl lstrip. rewrite Hc. rewrite rstrip_fixed.
    now rewrite negb_involutive.
Qed.

Lemma str_in_char (c : ascii) (s : string) :
  str_in (String c EmptyString) s = has_char c s.
Proof.
  unfold has_char.
  induction s as [|b r IH]; [reflexivity|].
  simpl. rewrite IH. now rewrite andb_true_r, (Ascii.eqb_sym b c).
Qed.

Lemma first_char_triggers (c : ascii) (r : string) :
  str_in (chr c) "-?@" || existsb (startswith (String c r)) quote_prefixes
  = starts_with_one_of trigger_first_chars (String c r).
Proof.
  unfold chr. rewrite str_in_char.
  unfold starts_with_one_of, has_char, quote_prefixes, trigger_first_chars, chr.
  simpl.
  rewrite !andb_true_r, !orb_false_r.
  now rewrite <- !orb_assoc.
Qed.

Lemma special_chars_triggers (s : string) :
  existsb (fun c => str_in c s) special_chars
  = existsb (fun c => has_char c s) trigger_chars.
Proof.
  change special_chars with (map chr trigger_chars).
  induction trigger_chars as [|c cs IH]; [reflexivity|].
  simpl map. cbn [existsb]. rewrite IH. unfold chr at 1.
  now rewrite str_in_char.
Qed.

Lemma reserved_triggers (s : string) :
  mem (lower s) reserved_words = existsb (ci_eqb s) reserved_words.
Proof. reflexivity. Qed.

(** The expression of the source and the rule of the specification agree
    on every string. *)
Lemma needs_quotes_refines (s : string) : needs_quotes s = quoting_triggered s.
Proof.
  destruct s as [|c r]; [reflexivity|].
  unfold needs_quotes, quoting_triggered.
  rewrite strip_changes, first_char_triggers, special_chars_triggers,
    reserved_triggers.
  unfold nl, chr. rewrite str_in_char.
  now rewrite <- !orb_assoc.
Qed.

Lemma replace_squote (s : string) : replace squote "''" s = double_squotes s.
Proof.
  induction s as [|c r IH]; [reflexivity|].
  simpl. rewrite IH. now destruct (Ascii.eqb c squote).
Qed.

Lemma drop_closing_quote_app (t : string) :
  drop_closing_quote (t ++ chr squote) = Some t.
Proof.
  induction t as [|c r IH]; [reflexivity|].
  destruct r as [|c' r'].
  - reflexivity.
  - change ((String c (String c' r') ++ chr squote))
      with (String c (String c' r' ++ chr squote)).
    change (String c' r' ++ chr squote) with (String c' (r' ++ chr squote)) in *.
    change (drop_closing_quote (String c (String c' (r' ++ chr squote))))
      with (option_map (String c) (drop_closing_quote (String c' (r' ++ chr squote)))).
    now rewrite IH.
Qed.

Lemma undouble_double (s : string) : undouble_squotes (double_squotes s) = s.
Proof.
  induction s as [|c r IH]; [reflexivity|].
  simpl. destruct (Ascii.eqb c squote) eqn:E.
  - apply Ascii.eqb_eq in E. subst c. simpl. now rewrite IH.
  - simpl. rewrite E. now rewrite IH.
Qed.

Lemma unquote_single_quoted (s : string) : unquote (single_quoted s) = Some s.
Proof.
  unfold unquote, single_quoted, strip_outer_quotes.
  rewrite Ascii.eqb_refl, drop_closing_quote_app. simpl.
  now rewrite undouble_double.
Qed.

Lemma length_append (a b : string) :
  String.length (a ++ b) = String.length a + String.length b.
Proof. induction a as [|c r IH]; simpl; [reflexivity | now rewrite IH]. Qed.

Lemma length_double_squotes (s : string) :
  String.length s <= String.length (double_squotes s).
Proof.
  induction s as [|c r IH]; simpl; [lia|].
  destruct (Ascii.eqb c squote); simpl; lia.
Qed.

Lemma single_quoted_differs (s : string) : single_quoted s <> s.
Proof.
  intros E. apply (f_equal String.length) in E.
  unfold single_quoted in E. simpl in E. rewrite length_append in E.
  pose proof (length_double_squotes s). simpl in E. lia.
Qed.

Lemma _yaml_escape_str_cases (s : string) :
  _yaml_escape_str s = if quoting_triggered s then single_quoted s else s.
Proof.
  unfold _yaml_escape_str. rewrite needs_quotes_refines.
  destruct (quoting_triggered s); simpl; [|reflexivity].
  now rewrite replace_squote.
Qed.

(** C3.  A string is quoted exactly when one of the triggers of the
    specification holds for it (it is empty, starts or ends with
    whitespace, contains a special character or a newline, is a reserved
    word up to case, or starts with one of the listed characters): then
    the result is the string in single quotes with each embedded single
    quote doubled, which differs from the string and reads back to it;
    otherwise the result is the string itself. *)
Theorem yaml_escape_str_quotes_exactly_on_triggers (s : string) :
  _yaml_escape_str s = (if quoting_triggered s then single_quoted s else s)
  /\ (_yaml_escape_str s = single_quoted s <-> quoting_triggered s = true)
  /\ (_yaml_escape_str s = s <-> quoting_triggered s = false)
  /\ unquote (single_quoted s) = Some s
  /\ (if quoting_triggered s then unquote (_yaml_escape_str s) = Some s else True).
Proof.
  pose proof (_yaml_escape_str_cases s) as H.
  pose proof (single_quoted_differs s) as D.
  pose proof (unquote_single_quoted s) as U.
  destruct (quoting_triggered s); rewrite H; repeat split; auto; congruence.
Qed.

(* ------------------------------------------------------------------ *)
(** ** The error classifier *)

Lemma mem_In (x : string) (xs : list string) : mem x xs = true <-> In x xs.
Proof.
  unfold mem. rewrite existsb_exists. split.
  - intros [y [Hy E]]. apply String.eqb_eq in E. now subst.
  - intros H. exists x. split; [assumption | apply String.eqb_refl].
Qed.

Lemma status_is_404_iff (err : ClientError) :
  status_is_404 err = true <-> http_status_code err = Some 404%Z.
Proof.
  unfold status_is_404. destruct (http_status_code err) as [n|].
  - rewrite Z.eqb_eq. split; congruence.
  - split; discriminate.
Qed.

Lemma classify_kind (err : ClientError) :
  fst (classify_client_error err)
  = if mem (code_of err) NOT_CONFIGURED_CODES || status_is_404 err
    then "not configured" else "error".
Proof.
  unfold classify_client_error.
  now destruct (mem (code_of err) NOT_CONFIGURED_CODES || status_is_404 err).
Qed.

Lemma classify_message (err : ClientError) :
  snd (classify_client_error err) = code_of err ++ ": " ++ msg_of err.
Proof.
  unfold classify_client_error.
  now destruct (mem (code_of err) NOT_CONFIGURED_CODES || status_is_404 err).
Qed.

Lemma absent_facet_iff (err : ClientError) :
  mem (code_of err) NOT_CONFIGURED_CODES || status_is_404 err = true
  <-> absent_facet err.
Proof.
  unfold absent_facet.
  now rewrite orb_true_iff, mem_In, status_is_404_iff.
Qed.

(** C1.  The classifier answers "not configured" exactly when the code of
    the error is one of the fixed not-configured codes or its HTTP status
    is 404, and "error" for every other error; in both cases the message
    is the code and the message of the error joined by a colon and a
    space. *)
Theorem classify_client_error_spec (err : ClientError) :
  (fst (classify_client_error err) = "not configured" <-> absent_facet err)
  /\ (fst (classify_client_error err) = "error" <-> ~ absent_facet err)
  /\ snd (classify_client_error err) = code_of err ++ ": " ++ msg_of err.
Proof.
  rewrite classify_kind, classify_message, <- absent_facet_iff.
  destruct (mem (code_of err) NOT_CONFIGURED_CODES || status_is_404 err);
    repeat split; try congruence; try discriminate; tauto.
Qed.

(* ------------------------------------------------------------------ *)
(** ** The facet runner *)

Lemma call_s3_getter_client_error (title : string) (fn : unit -> call_result)
    (post : option (dict -> value)) (e : ClientError) :
  fn tt = RaisesClientError e ->
  call_s3_getter title fn post
  = if fst (classify_client_error e) =? "not configured"
    then Done ("not configured", VDict [("status", VStr "not configured")])
    else Done ("error",
               VDict [("status", VStr "error");
                      ("message", VStr (snd (classify_client_error e)))]).
Proof.
  intros H. unfold call_s3_getter. rewrite H.
  now destruct (classify_client_error e).
Qed.

(** C2.  One facet run.  A provider error classified "not configured"
    gives exactly the one-key mapping with status "not configured", with
    no message, also when only the status 404 made it so; one classified
    "error" gives the mapping of status "error" and the classified
    message; a response gives "ok" with the response, post-processed when
    the facet has a post-processor. *)
Theorem call_s3_getter_outcomes (title : string) (fn : unit -> call_result)
    (post : option (dict -> value)) :
  (forall e, fn tt = RaisesClientError e ->
     fst (classify_client_error e) = "not configured" ->
     call_s3_getter title fn post
     = Done ("not configured", VDict [("status", VStr "not configured")]))
  /\ (forall e, fn tt = RaisesClientError e ->
        http_status_code e = Some 404%Z ->
        call_s3_getter title fn post
        = Done ("not configured", VDict [("status", VStr "not configured")]))
  /\ (forall e, fn tt = RaisesClientError e ->
        fst (classify_client_error e) = "error" ->
        call_s3_getter title fn post
        = Done ("error",
                VDict [("status", VStr "error");
                       ("message", VStr (snd (classify_client_error e)))]))
  /\ (forall data p, fn tt = Returns data -> post = Some p ->
        call_s3_getter title fn post = Done ("ok", p data))
  /\ (forall data, fn tt = Returns data -> post = None ->
        call_s3_getter title fn post = Done ("ok", VDict data)).
Proof.
  repeat split.
  - intros e H K. rewrite (call_s3_getter_client_error _ _ _ _ H), K.
    reflexivity.
  - intros e H K. rewrite (call_s3_getter_client_error _ _ _ _ H).
    rewrite classify_kind.
    assert (E : status_is_404 e = true) by now apply status_is_404_iff.
    rewrite E, orb_true_r. reflexivity.
  - intros e H K. rewrite (call_s3_getter_client_error _ _ _ _ H), K.
    reflexivity.
  - intros data p H ->. unfold call_s3_getter. now rewrite H.
  - intros data H ->. unfold call_s3_getter. now rewrite H.
Qed.

(* ------------------------------------------------------------------ *)
(** ** The emitter *)

Lemma str_int_nonempty (n : Z) : str_int n <> EmptyString.
Proof.
  unfold str_int.
  destruct (Z.to_int n) as [d|d]; simpl; [|discriminate].
  destruct d; discriminate.
Qed.

Lemma _yaml_escape_str_nonempty (s : string) : _yaml_escape_str s <> EmptyString.
Proof.
  rewrite _yaml_escape_str_cases.
  destruct (quoting_triggered s) eqn:E.
  - discriminate.
  - intros ->. discriminate.
Qed.

Lemma length_join_first (sep x : string) (xs : list string) :
  String.length x <= String.length (join sep (x :: xs)).
Proof.
  unfold join. destruct xs as [|y ys]; simpl; [lia|].
  rewrite length_append. lia.
Qed.

Lemma join_nonempty (sep x : string) (xs : list string) :
  0 < String.length x -> join sep (x :: xs) <> EmptyString.
Proof.
  intros H E. pose proof (length_join_first sep x xs) as L.
  rewrite E in L. simpl in L. lia.
Qed.

Lemma length_item_line (sp body : string) :
  0 < String.length (sp ++ "- " ++ body).
Proof. rewrite !length_append. simpl. lia. Qed.

Lemma length_key_line (sp key rest : string) :
  0 < String.length (sp ++ key ++ String ":" rest).
Proof. rewrite !length_append. simpl. lia. Qed.

Lemma yaml_info_nonempty (obj : value) (indent : nat) :
  yaml_info obj indent <> EmptyString.
Proof.
  destruct obj as [|b|n|s|items|items|d]; simpl.
  - discriminate.
  - destruct b; discriminate.
  - apply str_int_nonempty.
  - apply _yaml_escape_str_nonempty.
  - destruct items as [|x xs]; [discriminate|].
    apply join_nonempty.
    destruct (_is_scalar x); apply length_item_line.
  - destruct items as [|[k v] r]; [discriminate|].
    cbn [flat_map fst snd].
    destruct (_is_scalar v); cbn [app]; apply join_nonempty;
      apply length_key_line.
  - apply _yaml_escape_str_nonempty.
Qed.

Lemma print_section_prints (title : string) (content : value) (out : list string) :
  print_section title content out
  = ((out ++ section_text title content)%list, Done tt).
Proof.
  unfold print_section, section_text, bind, print.
  destruct (yaml_info content 2 =? EmptyString) eqn:E.
  - apply String.eqb_eq in E. now apply yaml_info_nonempty in E.
  - simpl. now rewrite <- !app_assoc.
Qed.

(** C9.  The empty sequence renders as the token [[]] and the empty
    mapping as the token [{}], at every indent; neither text holds a
    newline. *)
Theorem yaml_info_empty_collections (indent : nat) :
  yaml_info (VList []) indent = "[]"
  /\ yaml_info (VDict []) indent = "{}"
  /\ has_char newline (yaml_info (VList []) indent) = false
  /\ has_char newline (yaml_info (VDict []) indent) = false.
Proof. repeat split. Qed.

(** C10.  The emitter never returns the empty text: null renders as
    [null], the empty string as two single quotes, the empty collections
    as their tokens, and every other value as a text of at least one
    character.  The section printer therefore always prints the rendering
    itself and never its substitute for an empty one. *)
Theorem yaml_info_never_empty (obj : value) (indent : nat) :
  yaml_info obj indent <> EmptyString
  /\ yaml_info VNone indent = "null"
  /\ yaml_info (VStr EmptyString) indent = "''"
  /\ yaml_info (VList []) indent = "[]"
  /\ yaml_info (VDict []) indent = "{}"
  /\ (forall title out,
        print_section title obj out
        = ((out ++ section_text title obj)%list, Done tt)).
Proof.
  split; [apply yaml_info_nonempty|].
  repeat split.
  intros title out. apply print_section_prints.
Qed.

(** C4 (the code departs from it).  One mapping of two keys as the only
    element of a sequence: the first key is printed on the line of the
    dash, after the dash and the spaces of the deeper indent, and only
    the second key goes to a line of its own. *)
Theorem yaml_info_nested_item_shares_dash_line :
  yaml_info (VList [VDict [("a", VInt 1); ("b", VInt 2)]]) 0
  = "-   a: 1" ++ nl ++ "  b: 2".
Proof. reflexivity. Qed.

Lemma startswith_app (a b : string) : startswith (a ++ b) a = true.
Proof.
  induction a as [|c r IH]; [reflexivity|].
  simpl. now rewrite Ascii.eqb_refl.
Qed.

Lemma startswith_join_first (sep x : string) (xs : list string) :
  startswith (join sep (x :: xs)) x = true.
Proof.
  unfold join. destruct xs as [|y ys]; simpl String.concat.
  - rewrite <- (startswith_app x EmptyString) at 1.
    f_equal. induction x as [|c r IH]; simpl; [reflexivity | now rewrite <- IH].
  - apply startswith_app.
Qed.

(** The same at every sequence and every indent: the text of a sequence
    whose first element is not a scalar starts with the dash followed, on
    the same line, by the rendering of that element at the deeper
    indent. *)
Lemma yaml_info_nested_first_item (x : value) (rest : list value) (indent : nat) :
  _is_scalar x = false ->
  startswith (yaml_info (VList (x :: rest)) indent)
    (spaces indent ++ "- " ++ yaml_info x (indent + 2)) = true.
Proof.
  intros H. cbn [yaml_info map]. rewrite H.
  apply startswith_join_first.
Qed.

(** The sibling branch for mappings does put a nested value on the lines
    after its key. *)
Example yaml_info_nested_value_follows_key :
  yaml_info (VDict [("k", VDict [("a", VInt 1); ("b", VInt 2)])]) 0
  = "k:" ++ nl ++ "  a: 1" ++ nl ++ "  b: 2".
Proof. reflexivity. Qed.

(** Scalars in a sequence are rendered on the line of their dash. *)
Example yaml_info_scalar_items :
  yaml_info (VList [VInt 1; VStr "x"; VNone]) 2
  = "  - 1" ++ nl ++ "  - x" ++ nl ++ "  - null".
Proof. reflexivity. Qed.

(* ------------------------------------------------------------------ *)
(** ** The post-processors *)

Lemma get_lookup (d : dict) (k : string) (v default : value) :
  lookup d k = Some v -> get d k default = v.
Proof. unfold get. now intros ->. Qed.

Lemma get_absent (d : dict) (k : string) (default : value) :
  lookup d k = None -> get d k default = default.
Proof. unfold get. now intros ->. Qed.

Lemma truthy_str (s : string) : truthy (VStr s) = true <-> s <> EmptyString.
Proof.
  simpl. rewrite negb_true_iff. apply String.eqb_neq.
Qed.

Section Decoder.

(** Any [json.loads], as long as it raises on the empty document. *)
Variable json_loads : string -> option value.
Hypothesis json_loads_empty : json_loads EmptyString = None.

(** C5.  The policy post-processor on a response whose [Policy] is a
    string.  A string that [json.loads] decodes gives the decoded
    structure.  A string it rejects gives a mapping that holds the raw
    string under [Policy]: the mapping of that one key when the string is
    not empty, the response as it came when it is.  The post-processor is
    a total function: it has no way to raise. *)
Theorem parse_policy_spec (resp : dict) (s : string) :
  lookup resp "Policy" = Some (VStr s) ->
  (forall decoded, json_loads s = Some decoded -> parse_policy json_loads resp = decoded)
  /\ (json_loads s = None ->
        (exists d, parse_policy json_loads resp = VDict d
                   /\ lookup d "Policy" = Some (VStr s))
        /\ (s <> EmptyString -> parse_policy json_loads resp = VDict [("Policy", VStr s)])).
Proof.
  intros H. unfold parse_policy. rewrite (get_lookup _ _ _ _ H).
  destruct (String.eqb_spec s EmptyString) as [->|Hs].
  - simpl. split.
    + intros decoded E. rewrite json_loads_empty in E. discriminate.
    + intros _. split; [|congruence]. now exists resp.
  - assert (T : truthy (VStr s) = true) by now apply truthy_str.
    rewrite T. simpl. split.
    + now intros decoded ->.
    + intros ->. split; [|reflexivity].
      now exists [("Policy", VStr s)].
Qed.

(** What the post-processor does with the other responses: one with no
    [Policy], or a false one, goes through as it came; a true [Policy]
    that is not a string is wrapped like a rejected string. *)
Lemma parse_policy_other (resp : dict) :
  (truthy (get resp "Policy" VNone) = false -> parse_policy json_loads resp = VDict resp)
  /\ (truthy (get resp "Policy" VNone) = true ->
      (forall s, get resp "Policy" VNone <> VStr s) ->
      parse_policy json_loads resp = VDict [("Policy", get resp "Policy" VNone)]).
Proof.
  unfold parse_policy. split.
  - now intros ->.
  - intros -> N. simpl.
    destruct (get resp "Policy" VNone); try reflexivity.
    now elim (N s).
Qed.

End Decoder.

(** C6.  The location normalizer.  An absent, null or empty
    [LocationConstraint] becomes [us-east-1]; a region that is not empty,
    and any other true value, goes through unchanged; the field of the
    result is never null and never the empty string. *)
Theorem normalize_location_spec (resp : dict) :
  (lookup resp "LocationConstraint" = None
   \/ lookup resp "LocationConstraint" = Some VNone
   \/ lookup resp "LocationConstraint" = Some (VStr EmptyString) ->
   normalize_location resp = VDict [("LocationConstraint", VStr "us-east-1")])
  /\ (forall s, lookup resp "LocationConstraint" = Some (VStr s) ->
        s <> EmptyString ->
        normalize_location resp = VDict [("LocationConstraint", VStr s)])
  /\ (forall v, lookup resp "LocationConstraint" = Some v ->
        truthy v = true ->
        normalize_location resp = VDict [("LocationConstraint", v)])
  /\ (exists v, normalize_location resp = VDict [("LocationConstraint", v)]
                /\ v <> VNone /\ v <> VStr EmptyString).
Proof.
  unfold normalize_location. repeat split.
  - intros [H|[H|H]].
    + now rewrite (get_absent _ _ _ H).
    + now rewrite (get_lookup _ _ _ _ H).
    + now rewrite (get_lookup _ _ _ _ H).
  - intros s H Hs. rewrite (get_lookup _ _ _ _ H).
    apply truthy_str in Hs. now rewrite Hs.
  - intros v H T. rewrite (get_lookup _ _ _ _ H). now rewrite T.
  - destruct (truthy (get resp "LocationConstraint" VNone)) eqn:T.
    + exists (get resp "LocationConstraint" VNone). repeat split.
      * intros E. rewrite E in T. discriminate.
      * intros E. rewrite E in T. discriminate.
    + exists (VStr "us-east-1"). repeat split; discriminate.
Qed.

(* ------------------------------------------------------------------ *)
(** ** The creation section *)

Lemma lookup_dict_set_same (d : dict) (k : string) (v : value) :
  lookup (dict_set d k v) k = Some v.
Proof.
  induction d as [|[k' v'] rest IH]; simpl.
  - now rewrite String.eqb_refl.
  - destruct (k' =? k) eqn:E; simpl; now rewrite E.
Qed.

Lemma lookup_dict_set_other (d : dict) (k k' : string) (v : value) :
  k <> k' -> lookup (dict_set d k v) k' = lookup d k'.
Proof.
  intros N. induction d as [|[k0 v0] rest IH]; simpl.
  - apply String.eqb_neq in N. now rewrite N.
  - destruct (k0 =? k) eqn:E; simpl.
    + apply String.eqb_eq in E. subst k0.
      apply String.eqb_neq in N. now rewrite N.
    + now rewrite IH.
Qed.

Lemma truthy_dict_set (d : dict) (k : string) (v : value) :
  truthy (VDict (dict_set d k v)) = true.
Proof.
  destruct d as [|[k' v'] rest]; simpl; [reflexivity|].
  now destruct (k' =? k).
Qed.

Lemma eq_str_name (b : dict) (bucket : string) :
  eq_str (get b "Name" VNone) bucket = true
  <-> lookup b "Name" = Some (VStr bucket).
Proof.
  unfold get. destruct (lookup b "Name") as [v|]; simpl.
  - destruct v; simpl; try (split; [discriminate | intros [=]]).
    rewrite String.eqb_eq. split; congruence.
  - split; discriminate.
Qed.

Lemma find_bucket_loop_skips (pre rest : list value) (bucket : string) :
  Forall (other_bucket bucket) pre ->
  find_bucket_loop (pre ++ rest) bucket = find_bucket_loop rest bucket.
Proof.
  induction 1 as [|x pre [d [-> N]] _ IH]; [reflexivity|].
  simpl. destruct (eq_str (get d "Name" VNone) bucket) eqn:E.
  - apply eq_str_name in E. contradiction.
  - exact IH.
Qed.

Lemma find_bucket_loop_none (bs : list value) (bucket : string) :
  Forall (other_bucket bucket) bs -> find_bucket_loop bs bucket = Done None.
Proof.
  intros H. rewrite <- (app_nil_r bs).
  now rewrite find_bucket_loop_skips.
Qed.

Lemma find_bucket_loop_name (bs : list value) (bucket : string) (binfo : dict) :
  find_bucket_loop bs bucket = Done (Some binfo) ->
  lookup binfo "Name" = Some (VStr bucket).
Proof.
  induction bs as [|x rest IH]; simpl; [discriminate|].
  destruct x as [| | | | |b|]; try discriminate.
  destruct (eq_str (get b "Name" VNone) bucket) eqn:E; [|exact IH].
  apply eq_str_name in E.
  destruct (get b "CreationDate" VNone); intros [= <-]; try assumption.
  rewrite lookup_dict_set_other; [assumption | discriminate].
Qed.

Lemma startswith_refl (s : string) : startswith s s = true.
Proof.
  induction s as [|c r IH]; [reflexivity|].
  simpl. now rewrite Ascii.eqb_refl.
Qed.

Lemma str_in_suffix (p sub : string) : str_in sub (p ++ sub) = true.
Proof.
  induction p as [|c r IH]; simpl.
  - destruct sub; simpl; [reflexivity|].
    now rewrite Ascii.eqb_refl, startswith_refl.
  - rewrite IH. apply orb_true_r.
Qed.

(** C7.  The creation section, when the enumeration returns.  The entry
    found is one whose [Name] equals the requested name as a string.  When
    the first such entry carries a datetime, the section shows the name
    and the datetime in ISO format.  When every entry is a bucket of
    another name (also when there is none), the section is an error, not
    a "not configured", and its message ends with the requested name. *)
Theorem creation_section (s3 : S3Client) (bucket : string) (lb : dict)
    (out : list string) :
  list_buckets s3 = Returns lb ->
  (forall binfo, find_bucket_in_listbuckets lb bucket = Done (Some binfo) ->
     lookup binfo "Name" = Some (VStr bucket))
  /\ (forall pre b post cd,
        get lb "Buckets" (VList []) = VList (pre ++ VDict b :: post) ->
        Forall (other_bucket bucket) pre ->
        lookup b "Name" = Some (VStr bucket) ->
        lookup b "CreationDate" = Some (VDatetime cd) ->
        main_creation s3 bucket out
        = ((out ++ section_text "Creation"
                     (VDict [("Name", VStr bucket);
                             ("CreationDate", VStr (isoformat cd))]))%list,
           Done tt))
  /\ (forall bs,
        get lb "Buckets" (VList []) = VList bs ->
        Forall (other_bucket bucket) bs ->
        main_creation s3 bucket out
        = ((out ++ section_text "Creation"
                     (VDict [("status", VStr "error");
                             ("message",
                              VStr ("Bucket not found in ListBuckets for name: "
                                    ++ bucket))]))%list,
           Done tt)
        /\ str_in bucket ("Bucket not found in ListBuckets for name: " ++ bucket)
           = true).
Proof.
  intros L. split; [|split].
  - intros binfo. unfold find_bucket_in_listbuckets.
    destruct (get lb "Buckets" (VList [])) as [| | |s|bs|d|];
      try discriminate; apply find_bucket_loop_name.
  - intros pre b post cd HB Hpre HN HC.
    unfold main_creation, bind, lift, find_bucket_in_listbuckets.
    rewrite L, HB, (find_bucket_loop_skips _ _ _ Hpre).
    simpl find_bucket_loop.
    apply eq_str_name in HN as HE. rewrite HE.
    rewrite (get_lookup _ _ _ _ HC).
    rewrite truthy_dict_set. cbn [negb].
    rewrite print_section_prints.
    unfold get.
    rewrite lookup_dict_set_same.
    rewrite lookup_dict_set_other by discriminate.
    now rewrite HN.
  - intros bs HB Hbs. split; [|apply str_in_suffix].
    unfold main_creation, bind, lift, find_bucket_in_listbuckets.
    rewrite L, HB, (find_bucket_loop_none _ _ Hbs).
    now rewrite print_section_prints.
Qed.

(* ------------------------------------------------------------------ *)
(** ** The whole run *)

Lemma call_s3_getter_total (title : string) (fn : unit -> call_result)
    (post : option (dict -> value)) :
  fn tt <> RaisesOther -> exists r, call_s3_getter title fn post = Done r.
Proof.
  intros H. unfold call_s3_getter.
  destruct (fn tt) as [data|e|]; [| |contradiction].
  - destruct post; eauto.
  - destruct (classify_client_error e) as [kind message].
    destruct (kind =? "not configured"); eauto.
Qed.

Lemma main_getter_step_prints
    (g : string * (unit -> call_result) * option (dict -> value))
    (out : list string) :
  getter_ok g ->
  main_getter_step g out = ((out ++ getter_section g)%list, Done tt).
Proof.
  destruct g as [[title fn] post]. unfold getter_ok, getter_section, getter_payload.
  simpl. intros H.
  destruct (call_s3_getter_total title fn post H) as [r E].
  unfold bind, lift. rewrite E. apply print_section_prints.
Qed.

Lemma for_each_getters_prints
    (gs : list (string * (unit -> call_result) * option (dict -> value)))
    (out : list string) :
  Forall getter_ok gs ->
  for_each gs main_getter_step out
  = ((out ++ flat_map getter_section gs)%list, Done tt).
Proof.
  intros H. revert out.
  induction H as [|g gs Hg _ IH]; intros out; simpl.
  - now rewrite app_nil_r.
  - unfold bind. rewrite (main_getter_step_prints g out Hg), IH.
    now rewrite <- app_assoc.
Qed.

Lemma main_caller_identity_prints (sts : StsClient) (out : list string) :
  get_caller_identity sts <> RaisesOther ->
  exists identity,
    main_caller_identity sts out
    = ((out ++ section_text "CallerIdentity" identity)%list, Done tt).
Proof.
  intros H. unfold main_caller_identity.
  destruct (get_caller_identity sts) as [ident|e|]; [| |contradiction];
    eexists; apply print_section_prints.
Qed.

Lemma find_bucket_loop_total (bs : list value) (bucket : string) :
  Forall (fun x => exists d, x = VDict d) bs ->
  exists r, find_bucket_loop bs bucket = Done r.
Proof.
  induction 1 as [|x rest [d ->] _ IH]; simpl; [eauto|].
  destruct (eq_str (get d "Name" VNone) bucket); [|exact IH].
  destruct (get d "CreationDate" VNone); eauto.
Qed.

Lemma main_creation_prints (s3 : S3Client) (bucket : string) (out : list string) :
  list_buckets s3 <> RaisesOther ->
  (forall lb, list_buckets s3 = Returns lb -> listing_well_formed lb) ->
  exists creation,
    main_creation s3 bucket out
    = ((out ++ section_text "Creation" creation)%list, Done tt).
Proof.
  intros H W. unfold main_creation.
  destruct (list_buckets s3) as [lb|e|]; [| |contradiction].
  - specialize (W lb eq_refl).
    unfold listing_well_formed in W. unfold find_bucket_in_listbuckets.
    destruct (get lb "Buckets" (VList [])) as [| | | |bs| |]; try contradiction.
    destruct (find_bucket_loop_total bs bucket W) as [r E].
    unfold bind, lift. rewrite E.
    destruct r as [binfo|]; [destruct (negb (truthy (VDict binfo)))|];
      eexists; apply print_section_prints.
  - eexists. apply print_section_prints.
Qed.

(** C8.  A run in which the identity call, the enumeration and the call
    of every facet of the table end with a response or a provider error
    prints one section for the caller identity, one for the creation and
    then one for each facet of the table in the order of the table,
    whatever the facets answered, and exits with status 0. *)
Theorem main_prints_every_section (json_loads : string -> option value)
    (bucket : string) (sts : StsClient) (s3 : S3Client) :
  get_caller_identity sts <> RaisesOther ->
  list_buckets s3 <> RaisesOther ->
  (forall lb, list_buckets s3 = Returns lb -> listing_well_formed lb) ->
  Forall getter_ok (getters json_loads s3 bucket) ->
  (exists identity creation,
     run json_loads bucket sts s3
     = ((section_text "CallerIdentity" identity
         ++ section_text "Creation" creation
         ++ flat_map getter_section (getters json_loads s3 bucket))%list, 0%Z))
  /\ map (fun g => fst (fst g)) (getters json_loads s3 bucket)
     = [ "Location"; "Versioning"; "Encryption"; "PublicAccessBlock";
         "Policy"; "Logging"; "Tagging"; "Lifecycle"; "ACL"; "PolicyStatus";
         "OwnershipControls"; "CORS"; "Website"; "Replication"; "Accelerate";
         "RequestPayment"; "ObjectLock" ].
Proof.
  intros Hi Hl Hw Hg. split; [|reflexivity].
  destruct (main_caller_identity_prints sts [] Hi) as [identity Ei].
  destruct (main_creation_prints s3 bucket
              ([] ++ section_text "CallerIdentity" identity) Hl Hw)
    as [creation Ec].
  exists identity, creation.
  unfold run, main, bind. rewrite Ei, Ec.
  rewrite (for_each_getters_prints _ _ Hg).
  unfold ret, exit_status. simpl app. reflexivity.
Qed.


Import Demo.

(** The scenarios of the specification, evaluated. *)

Example tagging_absent_is_not_configured :
  classify_client_error no_tag_set
  = ("not configured", "NoSuchTagSet: The TagSet does not exist").
Proof. reflexivity. Qed.

Example access_denied_is_error :
  classify_client_error access_denied = ("error", "AccessDenied: Access Denied").
Proof. reflexivity. Qed.

Example error_without_code_is_unknown :
  classify_client_error
    {| error_code := None; error_message := None;
       http_status_code := None; str_err := "boom" |}
  = ("error", "Unknown: boom").
Proof. reflexivity. Qed.

Example not_configured_is_printed_bare :
  yaml_info (VDict [("status", VStr "not configured")]) 2
  = "  status: not configured".
Proof. reflexivity. Qed.

Example plain_strings_stay_bare :
  _yaml_escape_str "2012-10-17" = "2012-10-17"
  /\ _yaml_escape_str "it's" = "it's"
  /\ _yaml_escape_str "Yes" = "'Yes'"
  /\ _yaml_escape_str "a: b" = "'a: b'"
  /\ _yaml_escape_str "'it" = "'''it'"
  /\ _yaml_escape_str " a" = "' a'".
Proof. repeat split. Qed.

Example demo_run_exits_zero :
  snd (run loads "my-bucket" sts s3) = 0%Z
  /\ List.length (fst (run loads "my-bucket" sts s3)) = 57.
Proof. split; reflexivity. Qed.

Example demo_run_first_sections :
  firstn 9 (fst (run loads "my-bucket" sts s3))
  = [ "----"; "CallerIdentity:"; "  Account: 123456789012";
      "----"; "Creation:";
      "  Name: my-bucket" ++ nl
        ++ "  CreationDate: '2024-03-05T09:30:00+00:00'";
      "----"; "Location:"; "  LocationConstraint: us-east-1" ].
Proof. reflexivity. Qed.

(** An exception that is not a provider error, raised by the enumeration,
    ends the run after the first section with status 1. *)
Example demo_run_crashes :
  run loads "my-bucket" sts s3_enumeration_crashes
  = (["----"; "CallerIdentity:"; "  Account: 123456789012"], 1%Z).
Proof. reflexivity. Qed.

(** Witnesses: the theorems above, applied to the concrete run. *)

Lemma call_s3_getter_outcomes_witness :
  call_s3_getter "Tagging" (fun _ => RaisesClientError no_tag_set) None
  = Done ("not configured", VDict [("status", VStr "not configured")])
  /\ call_s3_getter "ObjectLock" (fun _ => RaisesClientError unlisted_404) None
     = Done ("not configured", VDict [("status", VStr "not configured")])
  /\ call_s3_getter "ACL" (fun _ => RaisesClientError access_denied) None
     = Done ("error",
             VDict [("status", VStr "error");
                    ("message", VStr "AccessDenied: Access Denied")])
  /\ call_s3_getter "Location"
       (fun _ => Returns [("LocationConstraint", VNone)])
       (Some normalize_location)
     = Done ("ok", VDict [("LocationConstraint", VStr "us-east-1")])
  /\ call_s3_getter "Versioning"
       (fun _ => Returns [("Status", VStr "Enabled")]) None
     = Done ("ok", VDict [("Status", VStr "Enabled")]).
Proof.
  split; [|split; [|split; [|split]]].
  - apply (proj1 (call_s3_getter_outcomes "Tagging"
                    (fun _ => RaisesClientError no_tag_set) None) no_tag_set);
      reflexivity.
  - apply (proj1 (proj2 (call_s3_getter_outcomes "ObjectLock"
                    (fun _ => RaisesClientError unlisted_404) None)) unlisted_404);
      reflexivity.
  - apply (proj1 (proj2 (proj2 (call_s3_getter_outcomes "ACL"
                    (fun _ => RaisesClientError access_denied) None))) access_denied);
      reflexivity.
  - apply (proj1 (proj2 (proj2 (proj2 (call_s3_getter_outcomes "Location"
                    (fun _ => Returns [("LocationConstraint", VNone)])
                    (Some normalize_location)))))
             [("LocationConstraint", VNone)] normalize_location);
      reflexivity.
  - apply (proj2 (proj2 (proj2 (proj2 (call_s3_getter_outcomes "Versioning"
                    (fun _ => Returns [("Status", VStr "Enabled")]) None))))
             [("Status", VStr "Enabled")]);
      reflexivity.
Defined.

Lemma parse_policy_spec_witness :
  parse_policy loads [("Policy", VStr "{}")] = VDict []
  /\ parse_policy loads [("Policy", VStr "{oops")]
     = VDict [("Policy", VStr "{oops")].
Proof.
  split.
  - apply (proj1 (parse_policy_spec loads eq_refl
                    [("Policy", VStr "{}")] "{}" eq_refl)).
    reflexivity.
  - apply (proj2 (parse_policy_spec loads eq_refl
                    [("Policy", VStr "{oops")] "{oops" eq_refl)).
    + reflexivity.
    + discriminate.
Defined.

Lemma normalize_location_spec_witness :
  normalize_location [("LocationConstraint", VNone)]
  = VDict [("LocationConstraint", VStr "us-east-1")]
  /\ normalize_location [("LocationConstraint", VStr "eu-west-1")]
     = VDict [("LocationConstraint", VStr "eu-west-1")].
Proof.
  split.
  - apply (proj1 (normalize_location_spec [("LocationConstraint", VNone)])).
    right. left. reflexivity.
  - apply (proj1 (proj2 (normalize_location_spec
                           [("LocationConstraint", VStr "eu-west-1")]))
             "eu-west-1").
    + reflexivity.
    + discriminate.
Defined.

Lemma creation_section_witness :
  main_creation s3 "my-bucket" []
  = (section_text "Creation"
       (VDict [("Name", VStr "my-bucket");
               ("CreationDate", VStr "2024-03-05T09:30:00+00:00")]),
     Done tt)
  /\ main_creation s3 "nope" []
     = (section_text "Creation"
          (VDict [("status", VStr "error");
                  ("message",
                   VStr "Bucket not found in ListBuckets for name: nope")]),
        Done tt).
Proof.
  split.
  - apply (proj1 (proj2 (creation_section s3 "my-bucket"
                           listing [] eq_refl))
             [VDict [("Name", VStr "logs"); ("CreationDate", VDatetime created)]]
             [("Name", VStr "my-bucket"); ("CreationDate", VDatetime created)]
             [] created).
    + reflexivity.
    + apply Forall_cons; [|apply Forall_nil].
      eexists. split; [reflexivity | discriminate].
    + reflexivity.
    + reflexivity.
  - apply (proj2 (proj2 (creation_section s3 "nope"
                           listing [] eq_refl))
             [VDict [("Name", VStr "logs"); ("CreationDate", VDatetime created)];
              VDict [("Name", VStr "my-bucket"); ("CreationDate", VDatetime created)]]).
    + reflexivity.
    + repeat (apply Forall_cons;
              [eexists; split; [reflexivity | discriminate]|]).
      apply Forall_nil.
Defined.

Lemma main_prints_every_section_witness :
  (exists identity creation,
     run loads "my-bucket" sts s3
     = ((section_text "CallerIdentity" identity
         ++ section_text "Creation" creation
         ++ flat_map getter_section
              (getters loads s3 "my-bucket"))%list, 0%Z))
  /\ map (fun g => fst (fst g)) (getters loads s3 "my-bucket")
     = [ "Location"; "Versioning"; "Encryption"; "PublicAccessBlock";
         "Policy"; "Logging"; "Tagging"; "Lifecycle"; "ACL"; "PolicyStatus";
         "OwnershipControls"; "CORS"; "Website"; "Replication"; "Accelerate";
         "RequestPayment"; "ObjectLock" ].
Proof.
  apply (main_prints_every_section loads "my-bucket" sts s3).
  - discriminate.
  - discriminate.
  - intros lb [= <-]. unfold listing_well_formed. simpl.
    repeat (apply Forall_cons; [eexists; reflexivity|]). apply Forall_nil.
  - unfold getters.
    repeat (apply Forall_cons; [unfold getter_ok; simpl; discriminate|]).
    apply Forall_nil.
Defined.

(* ------------------------------------------------------------------ *)
(** ** More on the quoting of strings *)

Lemma has_char_app (c : ascii) (a b : string) :
  has_char c (a ++ b) = has_char c a || has_char c b.
Proof.
  unfold has_char. induction a as [|x r IH]; [reflexivity|].
  simpl. now rewrite IH, orb_assoc.
Qed.

Lemma has_char_double_squotes (c : ascii) (s : string) :
  has_char c (double_squotes s) = has_char c s.
Proof.
  unfold has_char. induction s as [|x r IH]; [reflexivity|].
  simpl. destruct (Ascii.eqb x squote) eqn:E; simpl; rewrite IH.
  - apply Ascii.eqb_eq in E. subst x. now destruct (Ascii.eqb c squote).
  - reflexivity.
Qed.

Lemma length_double_squotes_le (s : string) :
  String.length (double_squotes s) <= 2 * String.length s.
Proof.
  induction s as [|c r IH]; simpl; [lia|].
  destruct (Ascii.eqb c squote); simpl; lia.
Qed.

Lemma single_quoted_triggered (s : string) :
  quoting_triggered (single_quoted s) = true.
Proof.
  unfold quoting_triggered. apply orb_true_iff. right. reflexivity.
Qed.

(** X1.  The quoting of strings is injective: two different strings never
    get the same text, also when one of them is the quoted text of the
    other. *)
Theorem yaml_escape_str_injective (s1 s2 : string) :
  s1 <> s2 -> _yaml_escape_str s1 <> _yaml_escape_str s2.
Proof.
  intros N. rewrite !_yaml_escape_str_cases.
  destruct (quoting_triggered s1) eqn:E1, (quoting_triggered s2) eqn:E2; intros H.
  - apply (f_equal unquote) in H. rewrite !unquote_single_quoted in H.
    congruence.
  - rewrite <- H, single_quoted_triggered in E2. discriminate.
  - rewrite H, single_quoted_triggered in E1. discriminate.
  - contradiction.
Qed.

Lemma yaml_escape_str_injective_witness :
  _yaml_escape_str "true" <> _yaml_escape_str "'true'".
Proof.
  apply (yaml_escape_str_injective "true" "'true'"). discriminate.
Defined.

(** X2.  Quoting adds and doubles single quotes and touches nothing else:
    every other character, a newline included, occurs in the result
    exactly when it occurs in the string.  A newline is never escaped. *)
Theorem yaml_escape_str_keeps_characters (c : ascii) (s : string) :
  c <> squote ->
  has_char c (_yaml_escape_str s) = has_char c s.
Proof.
  intros N. rewrite _yaml_escape_str_cases.
  destruct (quoting_triggered s); [|reflexivity].
  unfold single_quoted.
  change (String squote (double_squotes s ++ chr squote))
    with (chr squote ++ (double_squotes s ++ chr squote)).
  rewrite !has_char_app, has_char_double_squotes.
  assert (E : has_char c (chr squote) = false).
  { unfold has_char. simpl. rewrite orb_false_r. now apply Ascii.eqb_neq. }
  rewrite E. now rewrite orb_false_r.
Qed.

Lemma yaml_escape_str_keeps_characters_witness :
  has_char newline (_yaml_escape_str ("a" ++ nl ++ "b"))
  = has_char newline ("a" ++ nl ++ "b").
Proof.
  apply (yaml_escape_str_keeps_characters newline ("a" ++ nl ++ "b")).
  discriminate.
Defined.

(** X3.  The text of a string is at least as long as the string and at
    most twice as long plus the two outer quotes. *)
Theorem yaml_escape_str_length (s : string) :
  String.length s <= String.length (_yaml_escape_str s)
  /\ String.length (_yaml_escape_str s) <= 2 * String.length s + 2.
Proof.
  rewrite _yaml_escape_str_cases.
  destruct (quoting_triggered s); [|lia].
  unfold single_quoted. simpl String.length. rewrite length_append.
  pose proof (length_double_squotes s).
  pose proof (length_double_squotes_le s).
  simpl String.length. lia.
Qed.

Lemma yaml_escape_str_avoids (s w : string) :
  first_char w <> Some squote -> quoting_triggered w = true ->
  _yaml_escape_str s <> w.
Proof.
  intros F T. rewrite _yaml_escape_str_cases.
  destruct (quoting_triggered s) eqn:E; intros H.
  - apply F. now rewrite <- H.
  - rewrite H, T in E. discriminate.
Qed.

(** X4.  A string never renders as [null], [true] or [false]: the text of
    a string differs from the text of [None] and of both booleans, at any
    indents. *)
Theorem yaml_info_str_not_null_nor_bool (s : string) (i j : nat) :
  yaml_info (VStr s) i <> yaml_info VNone j
  /\ (forall b, yaml_info (VStr s) i <> yaml_info (VBool b) j).
Proof.
  split.
  - simpl. apply yaml_escape_str_avoids; [discriminate | reflexivity].
  - intros b. simpl.
    destruct b; apply yaml_escape_str_avoids; (discriminate || reflexivity).
Qed.

Lemma digit_not_space (c : ascii) : is_digit c = true -> isspace c = false.
Proof.
  destruct c as [[] [] [] [] [] [] [] []]; intros H;
    try reflexivity; discriminate H.
Qed.

Lemma digit_lower (c : ascii) : is_digit c = true -> lower_char c = c.
Proof.
  destruct c as [[] [] [] [] [] [] [] []]; intros H;
    try reflexivity; discriminate H.
Qed.

Lemma digits_lower (s : string) : digits_only s = true -> lower s = s.
Proof.
  unfold digits_only. induction s as [|c r IH]; [reflexivity|].
  simpl. intros H. apply andb_true_iff in H. destruct H as [Hc Hr].
  now rewrite (digit_lower c Hc), IH.
Qed.

Lemma digits_has_no (t : ascii) (s : string) :
  is_digit t = false -> digits_only s = true -> has_char t s = false.
Proof.
  unfold digits_only, has_char. intros Ht.
  induction s as [|c r IH]; [reflexivity|].
  simpl. intros H. apply andb_true_iff in H. destruct H as [Hc Hr].
  rewrite (IH Hr), orb_false_r.
  apply Ascii.eqb_neq. intros ->. congruence.
Qed.

Lemma digits_last_not_space (s : string) :
  digits_only s = true -> is_space_opt (last_char s) = false.
Proof.
  unfold digits_only. induction s as [|c r IH]; [reflexivity|].
  simpl forallb. intros H. apply andb_true_iff in H. destruct H as [Hc Hr].
  destruct r as [|c' r'].
  - simpl. now apply digit_not_space.
  - exact (IH Hr).
Qed.

Lemma digits_no_trigger_char (s : string) :
  digits_only s = true ->
  existsb (fun c => has_char c s) trigger_chars = false.
Proof.
  intros H. apply not_true_iff_false. rewrite existsb_exists.
  intros [t [Ht Hc]].
  assert (N : forallb (fun c => negb (is_digit c)) trigger_chars = true)
    by reflexivity.
  rewrite forallb_forall in N. specialize (N t Ht).
  apply negb_true_iff in N.
  rewrite (digits_has_no t s N H) in Hc. discriminate.
Qed.

Lemma digits_not_reserved (c : ascii) (r : string) :
  is_digit c = true -> existsb (String.eqb (String c r)) reserved_words = false.
Proof.
  destruct c as [[] [] [] [] [] [] [] []]; intros H;
    try discriminate H; reflexivity.
Qed.

Lemma digits_first_char_free (c : ascii) (r : string) :
  is_digit c = true ->
  starts_with_one_of trigger_first_chars (String c r) = false.
Proof.
  destruct c as [[] [] [] [] [] [] [] []]; intros H;
    try discriminate H; reflexivity.
Qed.

Lemma digits_untriggered (s : string) :
  digits_only s = true -> s <> EmptyString -> quoting_triggered s = false.
Proof.
  intros H N. destruct s as [|c r]; [contradiction|].
  assert (Hc : is_digit c = true).
  { unfold digits_only in H. simpl in H. now apply andb_true_iff in H. }
  unfold quoting_triggered.
  rewrite (digits_last_not_space _ H), (digits_no_trigger_char _ H).
  rewrite (digits_has_no newline _ eq_refl H).
  rewrite (digits_first_char_free c r Hc).
  cbn [first_char is_space_opt]. rewrite (digit_not_space c Hc).
  unfold ci_eqb. rewrite (digits_lower _ H).
  change (existsb (fun b => String c r =? lower b) reserved_words)
    with (existsb (String.eqb (String c r)) reserved_words).
  now rewrite (digits_not_reserved c r Hc).
Qed.

Lemma digits_string_of_uint (d : Decimal.uint) :
  digits_only (NilEmpty.string_of_uint d) = true.
Proof.
  unfold digits_only. induction d; simpl; auto.
Qed.

Lemma digits_str_int (n : Z) : (0 <= n)%Z -> digits_only (str_int n) = true.
Proof.
  intros H. unfold str_int. destruct n as [|p|p]; [reflexivity| |lia].
  simpl. destruct (Pos.to_uint p) eqn:E; try reflexivity;
    rewrite <- E; unfold NilZero.string_of_uint;
    rewrite E; rewrite <- E at 1; apply digits_string_of_uint.
Qed.

(** X5.  The emitter does not tell a string of decimal digits from a
    number: the decimal text of a number that is not negative renders, as
    a string, exactly as the number does.  The decimal text of a negative
    number starts with a dash and is quoted. *)
Theorem yaml_info_digit_strings (n : Z) (i j : nat) :
  ((0 <= n)%Z -> yaml_info (VStr (str_int n)) i = yaml_info (VInt n) j)
  /\ ((n < 0)%Z -> yaml_info (VStr (str_int n)) i = single_quoted (str_int n)).
Proof.
  simpl. rewrite _yaml_escape_str_cases. split; intros H.
  - now rewrite (digits_untriggered _ (digits_str_int n H) (str_int_nonempty n)).
  - destruct n as [|p|p]; try lia.
    assert (T : quoting_triggered (str_int (Z.neg p)) = true).
    { unfold quoting_triggered. apply orb_true_iff. right. reflexivity. }
    now rewrite T.
Qed.

Lemma yaml_info_digit_strings_witness :
  yaml_info (VStr "2024") 2 = yaml_info (VInt 2024) 0
  /\ yaml_info (VStr "-7") 2 = "'-7'".
Proof.
  split.
  - apply (proj1 (yaml_info_digit_strings 2024 2 0)). discriminate.
  - apply (proj2 (yaml_info_digit_strings (-7) 2 0)). reflexivity.
Defined.

(* ------------------------------------------------------------------ *)
(** ** More on the emitter and the section printer *)

(** X6.  The indent only matters for a list or a mapping that is not
    empty: a scalar, an empty collection and a datetime render the same
    at every indent. *)
Theorem yaml_info_indent_free (x : value) (i j : nat) :
  (forall y ys, x <> VList (y :: ys)) ->
  (forall kv kvs, x <> VDict (kv :: kvs)) ->
  yaml_info x i = yaml_info x j.
Proof.
  intros HL HD. destruct x as [|b|n|s|items|items|d]; try reflexivity.
  - destruct items as [|y ys]; [reflexivity|]. now elim (HL y ys).
  - destruct items as [|kv kvs]; [reflexivity|]. now elim (HD kv kvs).
Qed.

Lemma yaml_info_indent_free_witness :
  yaml_info (VStr "eu-west-1") 6 = yaml_info (VStr "eu-west-1") 0.
Proof.
  apply (yaml_info_indent_free (VStr "eu-west-1") 6 0); discriminate.
Defined.

(** X7.  The section of an empty response: its body is the bare token
    [{}] at the first column, which is the rendering itself and not the
    indented substitute of the printer; the same holds when a facet call
    returns an empty response and has no post-processor. *)
Theorem print_section_empty_response (title : string) (out : list string) :
  print_section title (VDict []) out
  = ((out ++ ["----"; (title ++ ":")%string; "{}"])%list, Done tt)
  /\ (forall fn, fn tt = Returns [] ->
        main_getter_step (title, fn, None) out
        = ((out ++ ["----"; (title ++ ":")%string; "{}"])%list, Done tt)).
Proof.
  split.
  - apply print_section_prints.
  - intros fn H. unfold main_getter_step, bind, lift, call_s3_getter.
    rewrite H. apply print_section_prints.
Qed.

Lemma print_section_empty_response_witness :
  main_getter_step ("Logging", fun _ => Returns [], None) []
  = (["----"; "Logging:"; "{}"], Done tt).
Proof.
  apply (proj2 (print_section_empty_response "Logging" []) (fun _ => Returns [])).
  reflexivity.
Defined.

(* ------------------------------------------------------------------ *)
(** ** More on the classifier and the facet runner *)

(** X8.  An error whose response carries no code is classified under the
    code [Unknown], which is not a not-configured code: it is an "error"
    unless its status is 404, and its message starts with [Unknown: ];
    without a message of its own the message is the text of the
    exception. *)
Theorem classify_without_code (err : ClientError) :
  error_code err = None ->
  classify_client_error err
  = (if status_is_404 err then "not configured" else "error",
     "Unknown: " ++ msg_of err)
  /\ (error_message err = None -> msg_of err = str_err err).
Proof.
  intros H. split.
  - unfold classify_client_error, code_of. rewrite H.
    change (mem "Unknown" NOT_CONFIGURED_CODES) with false.
    now destruct (status_is_404 err).
  - unfold msg_of. now intros ->.
Qed.

Lemma classify_without_code_witness :
  classify_client_error
    {| error_code := None; error_message := None;
       http_status_code := Some 500%Z; str_err := "boom" |}
  = ("error", "Unknown: boom").
Proof.
  apply (proj1 (classify_without_code
                  {| error_code := None; error_message := None;
                     http_status_code := Some 500%Z; str_err := "boom" |}
                  eq_refl)).
Defined.

Lemma colon_triggers (s : string) :
  has_char ":" s = true -> quoting_triggered s = true.
Proof.
  intros H. unfold quoting_triggered.
  apply orb_true_iff; left. apply orb_true_iff; left. apply orb_true_iff; left.
  apply orb_true_iff; right.
  unfold trigger_chars. cbn [existsb]. now rewrite H.
Qed.

Lemma classified_message_has_colon (e : ClientError) :
  has_char ":" (snd (classify_client_error e)) = true.
Proof.
  rewrite classify_message, !has_char_app.
  change (has_char ":" ": ") with true. now rewrite orb_true_r.
Qed.

(** X9.  The body of an error payload is two lines at the indent: the
    status, bare, and the classified message, which holds a colon and is
    therefore always in single quotes. *)
Theorem error_payload_body (e : ClientError) (indent : nat) :
  yaml_info (error_payload (snd (classify_client_error e))) indent
  = join nl
      [ spaces indent ++ "status: error";
        spaces indent ++ "message: "
          ++ single_quoted (code_of e ++ ": " ++ msg_of e) ].
Proof.
  unfold error_payload.
  cbn [yaml_info flat_map _is_scalar fst snd app].
  change (_yaml_escape_str "error") with "error".
  rewrite _yaml_escape_str_cases.
  rewrite (colon_triggers _ (classified_message_has_colon e)).
  now rewrite classify_message.
Qed.

(** X10.  On a provider error the post-processor of the facet plays no
    part, and the kind returned is the status written in the payload; it
    is never "ok". *)
Theorem call_s3_getter_error_outcome (title : string) (fn : unit -> call_result)
    (post post' : option (dict -> value)) (e : ClientError) :
  fn tt = RaisesClientError e ->
  call_s3_getter title fn post = call_s3_getter title fn post'
  /\ exists kind payload,
       call_s3_getter title fn post = Done (kind, VDict payload)
       /\ lookup payload "status" = Some (VStr kind)
       /\ kind <> "ok".
Proof.
  intros H. rewrite !(call_s3_getter_client_error _ _ _ _ H).
  split; [reflexivity|].
  destruct (fst (classify_client_error e) =? "not configured");
    do 2 eexists; repeat split; discriminate.
Qed.

Lemma call_s3_getter_error_outcome_witness :
  call_s3_getter "Policy" (fun _ => RaisesClientError access_denied)
    (Some (parse_policy loads))
  = call_s3_getter "Policy" (fun _ => RaisesClientError access_denied) None.
Proof.
  apply (proj1 (call_s3_getter_error_outcome "Policy"
                  (fun _ => RaisesClientError access_denied)
                  (Some (parse_policy loads)) None access_denied eq_refl)).
Defined.

(** X11.  The two special sections never say "not configured": a provider
    error of the identity call or of the enumeration is printed with
    status "error" and the classified message, whatever its code and its
    status, a 404 included. *)
Theorem special_sections_report_error (e : ClientError) (out : list string) :
  (forall sts, get_caller_identity sts = RaisesClientError e ->
     main_caller_identity sts out
     = ((out ++ section_text "CallerIdentity"
                  (VDict [("status", VStr "error");
                          ("message", VStr (code_of e ++ ": " ++ msg_of e))]))%list,
        Done tt))
  /\ (forall s3 bucket, list_buckets s3 = RaisesClientError e ->
        main_creation s3 bucket out
        = ((out ++ section_text "Creation"
                     (VDict [("status", VStr "error");
                             ("message", VStr (code_of e ++ ": " ++ msg_of e))]))%list,
           Done tt)).
Proof.
  split.
  - intros sts H. unfold main_caller_identity. rewrite H.
    rewrite print_section_prints. unfold error_payload.
    now rewrite classify_message.
  - intros s3 bucket H. unfold main_creation. rewrite H.
    rewrite print_section_prints. unfold error_payload.
    now rewrite classify_message.
Qed.

Lemma special_sections_report_error_witness :
  main_caller_identity {| get_caller_identity := RaisesClientError no_tag_set |} []
  = (section_text "CallerIdentity"
       (VDict [("status", VStr "error");
               ("message", VStr "NoSuchTagSet: The TagSet does not exist")]),
     Done tt).
Proof.
  apply (proj1 (special_sections_report_error no_tag_set [])
           {| get_caller_identity := RaisesClientError no_tag_set |}).
  reflexivity.
Defined.

(* ------------------------------------------------------------------ *)
(** ** More on the search of the enumeration *)

Lemma keys_dict_set (d : dict) (k : string) (v w : value) :
  lookup d k = Some w -> map fst (dict_set d k v) = map fst d.
Proof.
  induction d as [|[k' v'] rest IH]; simpl; [discriminate|].
  destruct (k' =? k) eqn:E; simpl; [reflexivity|].
  intros H. now rewrite (IH H).
Qed.

Lemma find_bucket_loop_match (pre post : list value) (b : dict) (bucket : string) :
  Forall (other_bucket bucket) pre ->
  lookup b "Name" = Some (VStr bucket) ->
  find_bucket_loop (pre ++ VDict b :: post) bucket
  = match get b "CreationDate" VNone with
    | VDatetime d => Done (Some (dict_set b "CreationDate" (VStr (isoformat d))))
    | _ => Done (Some b)
    end.
Proof.
  intros Hpre HN. rewrite (find_bucket_loop_skips _ _ _ Hpre).
  simpl. apply eq_str_name in HN. now rewrite HN.
Qed.

(** X12.  The search stops at the first entry of the requested name: what
    the enumeration holds after that entry, well formed or not, has no
    effect on the result, and the search returns an entry. *)
Theorem find_bucket_stops_at_first_match (lb lb' : dict) (bucket : string)
    (pre post post' : list value) (b : dict) :
  get lb "Buckets" (VList []) = VList (pre ++ VDict b :: post) ->
  get lb' "Buckets" (VList []) = VList (pre ++ VDict b :: post') ->
  Forall (other_bucket bucket) pre ->
  lookup b "Name" = Some (VStr bucket) ->
  find_bucket_in_listbuckets lb bucket = find_bucket_in_listbuckets lb' bucket
  /\ exists binfo, find_bucket_in_listbuckets lb bucket = Done (Some binfo).
Proof.
  intros H H' Hpre HN. unfold find_bucket_in_listbuckets. rewrite H, H'.
  rewrite !(find_bucket_loop_match _ _ _ _ Hpre HN).
  split; [reflexivity|].
  destruct (get b "CreationDate" VNone); eauto.
Qed.

Lemma find_bucket_stops_at_first_match_witness :
  find_bucket_in_listbuckets
    [("Buckets", VList [VDict [("Name", VStr "logs")]; VInt 7])] "logs"
  = find_bucket_in_listbuckets
      [("Buckets", VList [VDict [("Name", VStr "logs")]])] "logs".
Proof.
  apply (proj1 (find_bucket_stops_at_first_match
                  [("Buckets", VList [VDict [("Name", VStr "logs")]; VInt 7])]
                  [("Buckets", VList [VDict [("Name", VStr "logs")]])]
                  "logs" [] [VInt 7] [] [("Name", VStr "logs")]
                  eq_refl eq_refl (Forall_nil _) eq_refl)).
Defined.

(** X13.  What the search does to the entry it returns.  An entry whose
    [CreationDate] is a datetime comes back with that one value replaced
    by the ISO text: the keys and their order are the same and every
    other key keeps its value.  An entry whose [CreationDate] is absent
    or is not a datetime comes back as it is. *)
Theorem find_bucket_normalizes_only_the_date (lb : dict) (bucket : string)
    (pre post : list value) (b : dict) :
  get lb "Buckets" (VList []) = VList (pre ++ VDict b :: post) ->
  Forall (other_bucket bucket) pre ->
  lookup b "Name" = Some (VStr bucket) ->
  (forall cd, lookup b "CreationDate" = Some (VDatetime cd) ->
     exists binfo,
       find_bucket_in_listbuckets lb bucket = Done (Some binfo)
       /\ lookup binfo "CreationDate" = Some (VStr (isoformat cd))
       /\ map fst binfo = map fst b
       /\ (forall k, k <> "CreationDate" -> lookup binfo k = lookup b k))
  /\ ((forall cd, lookup b "CreationDate" <> Some (VDatetime cd)) ->
      find_bucket_in_listbuckets lb bucket = Done (Some b)).
Proof.
  intros H Hpre HN. unfold find_bucket_in_listbuckets. rewrite H.
  rewrite (find_bucket_loop_match _ _ _ _ Hpre HN). split.
  - intros cd HC. rewrite (get_lookup _ _ _ _ HC).
    eexists. split; [reflexivity|]. split; [apply lookup_dict_set_same|].
    split; [exact (keys_dict_set _ _ _ _ HC)|].
    intros k Hk. apply lookup_dict_set_other. congruence.
  - intros HC. unfold get.
    destruct (lookup b "CreationDate") as [v|]; [|reflexivity].
    destruct v; try reflexivity. now elim (HC d).
Qed.

Lemma find_bucket_normalizes_only_the_date_witness :
  find_bucket_in_listbuckets
    [("Buckets", VList [VDict [("Name", VStr "logs");
                               ("CreationDate", VStr "2020-01-01")]])] "logs"
  = Done (Some [("Name", VStr "logs"); ("CreationDate", VStr "2020-01-01")]).
Proof.
  apply (proj2 (find_bucket_normalizes_only_the_date
                  [("Buckets", VList [VDict [("Name", VStr "logs");
                                             ("CreationDate", VStr "2020-01-01")]])]
                  "logs" [] []
                  [("Name", VStr "logs"); ("CreationDate", VStr "2020-01-01")]
                  eq_refl (Forall_nil _) eq_refl)).
  intros cd. discriminate.
Defined.

(** X14.  The edges of the search.  A response without [Buckets] gives no
    entry.  An entry that is not a mapping, met before any entry of the
    requested name, ends the search with an exception that the script
    does not catch. *)
Theorem find_bucket_edges (lb : dict) (bucket : string) :
  (lookup lb "Buckets" = None -> find_bucket_in_listbuckets lb bucket = Done None)
  /\ (forall pre x post,
        get lb "Buckets" (VList []) = VList (pre ++ x :: post) ->
        Forall (other_bucket bucket) pre ->
        (forall d, x <> VDict d) ->
        find_bucket_in_listbuckets lb bucket = Uncaught).
Proof.
  unfold find_bucket_in_listbuckets. split.
  - intros H. now rewrite (get_absent _ _ _ H).
  - intros pre x post H Hpre Hx. rewrite H.
    rewrite (find_bucket_loop_skips _ _ _ Hpre).
    destruct x; try reflexivity. now elim (Hx items).
Qed.

Lemma find_bucket_edges_witness :
  find_bucket_in_listbuckets [] "logs" = Done None
  /\ find_bucket_in_listbuckets [("Buckets", VList [VStr "logs"])] "logs"
     = Uncaught.
Proof.
  split.
  - apply (proj1 (find_bucket_edges [] "logs")). reflexivity.
  - apply (proj2 (find_bucket_edges [("Buckets", VList [VStr "logs"])] "logs")
             [] (VStr "logs") []).
    + reflexivity.
    + apply Forall_nil.
    + discriminate.
Defined.

Lemma truthy_dict_with_key (d : dict) (k : string) (v : value) :
  lookup d k = Some v -> truthy (VDict d) = true.
Proof. destruct d; [discriminate | reflexivity]. Qed.

(** X15.  The creation section of a bucket whose entry carries no
    [CreationDate]: the section still shows the name, and shows the date
    as [null]. *)
Theorem creation_section_without_date (s3 : S3Client) (bucket : string)
    (lb : dict) (pre post : list value) (b : dict) (out : list string) :
  list_buckets s3 = Returns lb ->
  get lb "Buckets" (VList []) = VList (pre ++ VDict b :: post) ->
  Forall (other_bucket bucket) pre ->
  lookup b "Name" = Some (VStr bucket) ->
  lookup b "CreationDate" = None ->
  main_creation s3 bucket out
  = ((out ++ [ "----"; "Creation:";
               join nl [ ("  Name: " ++ _yaml_escape_str bucket)%string;
                         "  CreationDate: null" ] ])%list,
     Done tt).
Proof.
  intros L H Hpre HN HC.
  unfold main_creation, bind, lift, find_bucket_in_listbuckets.
  rewrite L, H, (find_bucket_loop_match _ _ _ _ Hpre HN).
  rewrite (get_absent _ _ _ HC).
  rewrite (truthy_dict_with_key _ _ _ HN). cbn [negb].
  rewrite print_section_prints.
  rewrite (get_lookup _ _ _ _ HN), (get_absent _ _ _ HC).
  reflexivity.
Qed.

Lemma creation_section_without_date_witness :
  main_creation
    {| list_buckets := Returns [("Buckets", VList [VDict [("Name", VStr "logs")]])];
       get_bucket_location := get_bucket_location s3;
       get_bucket_versioning := get_bucket_versioning s3;
       get_bucket_encryption := get_bucket_encryption s3;
       get_public_access_block := get_public_access_block s3;
       get_bucket_policy := get_bucket_policy s3;
       get_bucket_logging := get_bucket_logging s3;
       get_bucket_tagging := get_bucket_tagging s3;
       get_bucket_lifecycle_configuration := get_bucket_lifecycle_configuration s3;
       get_bucket_acl := get_bucket_acl s3;
       get_bucket_policy_status := get_bucket_policy_status s3;
       get_bucket_ownership_controls := get_bucket_ownership_controls s3;
       get_bucket_cors := get_bucket_cors s3;
       get_bucket_website := get_bucket_website s3;
       get_bucket_replication := get_bucket_replication s3;
       get_bucket_accelerate_configuration := get_bucket_accelerate_configuration s3;
       get_bucket_request_payment := get_bucket_request_payment s3;
       get_object_lock_configuration := get_object_lock_configuration s3 |}
    "logs" []
  = ([ "----"; "Creation:"; "  Name: logs" ++ nl ++ "  CreationDate: null" ],
     Done tt).
Proof.
  eapply (creation_section_without_date _ "logs"
            [("Buckets", VList [VDict [("Name", VStr "logs")]])]
            [] [] [("Name", VStr "logs")] []).
  - reflexivity.
  - reflexivity.
  - apply Forall_nil.
  - reflexivity.
  - reflexivity.
Defined.

(* ------------------------------------------------------------------ *)
(** ** More on the post-processors *)

(** X16.  The policy post-processor where there is no text to decode, for
    any decoder.  A response with no [Policy], a null one or an empty
    one comes back whole, as it came.  A [Policy] that is true and is not
    a string is wrapped, alone, under [Policy]. *)
Theorem parse_policy_without_text (json_loads : string -> option value)
    (resp : dict) :
  (lookup resp "Policy" = None
   \/ lookup resp "Policy" = Some VNone
   \/ lookup resp "Policy" = Some (VStr EmptyString) ->
   parse_policy json_loads resp = VDict resp)
  /\ (forall v, lookup resp "Policy" = Some v ->
        truthy v = true ->
        (forall s, v <> VStr s) ->
        parse_policy json_loads resp = VDict [("Policy", v)]).
Proof.
  unfold parse_policy. split.
  - intros [H|[H|H]].
    + now rewrite (get_absent _ _ _ H).
    + now rewrite (get_lookup _ _ _ _ H).
    + now rewrite (get_lookup _ _ _ _ H).
  - intros v H T N. rewrite (get_lookup _ _ _ _ H), T. simpl.
    destruct v; try reflexivity. now elim (N s).
Qed.

Lemma parse_policy_without_text_witness :
  parse_policy loads [("ResponseMetadata", VDict [])]
  = VDict [("ResponseMetadata", VDict [])]
  /\ parse_policy loads [("Policy", VInt 5); ("ResponseMetadata", VDict [])]
     = VDict [("Policy", VInt 5)].
Proof.
  split.
  - apply (proj1 (parse_policy_without_text loads
                    [("ResponseMetadata", VDict [])])).
    left. reflexivity.
  - apply (proj2 (parse_policy_without_text loads
                    [("Policy", VInt 5); ("ResponseMetadata", VDict [])])
             (VInt 5)).
    + reflexivity.
    + reflexivity.
    + discriminate.
Defined.

(** X17.  The location normalizer keeps one key and is idempotent: its
    result is a mapping of the single key [LocationConstraint], every
    other key of the response is dropped, and normalizing the result
    again changes nothing.  Any false value of the key, such as [0],
    [False] or an empty collection, is replaced by [us-east-1] like
    [None] and the empty string are. *)
Theorem normalize_location_idempotent (resp : dict) :
  (exists d, normalize_location resp = VDict d
             /\ map fst d = ["LocationConstraint"]
             /\ normalize_location d = VDict d)
  /\ (truthy (get resp "LocationConstraint" VNone) = false ->
      normalize_location resp = VDict [("LocationConstraint", VStr "us-east-1")]).
Proof.
  unfold normalize_location. split.
  - destruct (truthy (get resp "LocationConstraint" VNone)) eqn:T.
    + exists [("LocationConstraint", get resp "LocationConstraint" VNone)].
      repeat split.
      change (get [("LocationConstraint", get resp "LocationConstraint" VNone)]
                "LocationConstraint" VNone)
        with (get resp "LocationConstraint" VNone).
      now rewrite T.
    + exists [("LocationConstraint", VStr "us-east-1")]. repeat split.
  - now intros ->.
Qed.

Lemma normalize_location_idempotent_witness :
  normalize_location [("LocationConstraint", VInt 0); ("ResponseMetadata", VDict [])]
  = VDict [("LocationConstraint", VStr "us-east-1")].
Proof.
  apply (proj2 (normalize_location_idempotent
                  [("LocationConstraint", VInt 0); ("ResponseMetadata", VDict [])])).
  reflexivity.
Defined.

(* ------------------------------------------------------------------ *)
(** ** More on the whole run *)

Lemma main_getter_step_raises
    (g : string * (unit -> call_result) * option (dict -> value))
    (out : list string) :
  snd (fst g) tt = RaisesOther -> main_getter_step g out = (out, Uncaught).
Proof.
  destruct g as [[title fn] post]. simpl. intros H.
  unfold bind, lift, call_s3_getter. now rewrite H.
Qed.

Lemma for_each_getters_stops
    (pre post : list (string * (unit -> call_result) * option (dict -> value)))
    (g : string * (unit -> call_result) * option (dict -> value))
    (out : list string) :
  Forall getter_ok pre ->
  snd (fst g) tt = RaisesOther ->
  for_each (pre ++ g :: post) main_getter_step out
  = ((out ++ flat_map getter_section pre)%list, Uncaught).
Proof.
  intros H Hg. revert out.
  induction H as [|x pre Hx _ IH]; intros out; simpl.
  - unfold bind. rewrite (main_getter_step_raises g out Hg).
    now rewrite app_nil_r.
  - unfold bind. rewrite (main_getter_step_prints x out Hx), IH.
    now rewrite <- app_assoc.
Qed.

(** X18.  An exception that is not a provider error, raised by the call of
    a facet, ends the run there: the identity section, the creation
    section and the sections of the facets before it are printed, none
    of the later facets is, and the exit status is 1. *)
Theorem run_stops_at_uncaught_getter (json_loads : string -> option value)
    (bucket : string) (sts : StsClient) (s3 : S3Client)
    (pre post : list (string * (unit -> call_result) * option (dict -> value)))
    (g : string * (unit -> call_result) * option (dict -> value)) :
  get_caller_identity sts <> RaisesOther ->
  list_buckets s3 <> RaisesOther ->
  (forall lb, list_buckets s3 = Returns lb -> listing_well_formed lb) ->
  getters json_loads s3 bucket = (pre ++ g :: post)%list ->
  Forall getter_ok pre ->
  snd (fst g) tt = RaisesOther ->
  exists identity creation,
    run json_loads bucket sts s3
    = ((section_text "CallerIdentity" identity
        ++ section_text "Creation" creation
        ++ flat_map getter_section pre)%list, 1%Z).
Proof.
  intros Hi Hl Hw HG Hpre Hg.
  destruct (main_caller_identity_prints sts [] Hi) as [identity Ei].
  destruct (main_creation_prints s3 bucket
              ([] ++ section_text "CallerIdentity" identity) Hl Hw)
    as [creation Ec].
  exists identity, creation.
  unfold run, main, bind. rewrite Ei, Ec, HG.
  rewrite (for_each_getters_stops _ _ _ _ Hpre Hg).
  unfold exit_status. simpl app. reflexivity.
Qed.

Lemma run_stops_at_uncaught_getter_witness :
  exists identity creation,
    run loads "my-bucket" sts s3_policy_crashes
    = ((section_text "CallerIdentity" identity
        ++ section_text "Creation" creation
        ++ flat_map getter_section
             (firstn 4 (getters loads s3_policy_crashes "my-bucket")))%list,
       1%Z).
Proof.
  apply (run_stops_at_uncaught_getter loads "my-bucket" sts s3_policy_crashes
           (firstn 4 (getters loads s3_policy_crashes "my-bucket"))
           (skipn 5 (getters loads s3_policy_crashes "my-bucket"))
           ("Policy", fun _ => get_bucket_policy s3_policy_crashes "my-bucket",
            Some (parse_policy loads))).
  - discriminate.
  - discriminate.
  - intros lb [= <-]. unfold listing_well_formed. simpl.
    repeat (apply Forall_cons; [eexists; reflexivity|]). apply Forall_nil.
  - reflexivity.
  - simpl firstn.
    repeat (apply Forall_cons; [unfold getter_ok; simpl; discriminate|]).
    apply Forall_nil.
  - reflexivity.
Defined.

(** X19.  The same exception raised by one of the first two calls: raised
    by the identity call, nothing is printed; raised by the enumeration,
    only the identity section is; the exit status is 1 and no facet is
    called. *)
Theorem run_stops_at_uncaught_first_calls (json_loads : string -> option value)
    (bucket : string) (sts : StsClient) (s3 : S3Client) :
  (get_caller_identity sts = RaisesOther ->
   run json_loads bucket sts s3 = ([], 1%Z))
  /\ (get_caller_identity sts <> RaisesOther ->
      list_buckets s3 = RaisesOther ->
      exists identity,
        run json_loads bucket sts s3
        = (section_text "CallerIdentity" identity, 1%Z)).
Proof.
  split.
  - intros H. unfold run, main, bind, main_caller_identity. now rewrite H.
  - intros Hi Hl.
    destruct (main_caller_identity_prints sts [] Hi) as [identity Ei].
    exists identity.
    unfold run, main, bind. rewrite Ei.
    unfold main_creation. now rewrite Hl.
Qed.

Lemma run_stops_at_uncaught_first_calls_witness :
  exists identity,
    run loads "my-bucket" sts s3_enumeration_crashes
    = (section_text "CallerIdentity" identity, 1%Z).
Proof.
  apply (proj2 (run_stops_at_uncaught_first_calls loads "my-bucket" sts
                  s3_enumeration_crashes)).
  - discriminate.
  - reflexivity.
Defined.

(* ------------------------------------------------------------------ *)
(** ** Flat collections and whole sections *)

Lemma flat_map_scalar_values (sp : string) (indent : nat) (items : dict) :
  Forall (fun kv => _is_scalar (snd kv) = true) items ->
  flat_map (fun kv =>
              if _is_scalar (snd kv)
              then [sp ++ fst kv ++ ": " ++ yaml_info (snd kv) 0]
              else [sp ++ fst kv ++ ":"; yaml_info (snd kv) (indent + 2)])
           items
  = map (fun kv => sp ++ fst kv ++ ": " ++ yaml_info (snd kv) 0) items.
Proof.
  induction 1 as [|kv rest H _ IH]; [reflexivity|].
  cbn [flat_map map]. rewrite H, IH. reflexivity.
Qed.

Lemma map_scalar_items (sp : string) (indent : nat) (items : list value) :
  Forall (fun x => _is_scalar x = true) items ->
  map (fun item =>
         if _is_scalar item
         then sp ++ "- " ++ yaml_info item 0
         else sp ++ "- " ++ yaml_info item (indent + 2))
      items
  = map (fun item => sp ++ "- " ++ yaml_info item 0) items.
Proof.
  induction 1 as [|x rest H _ IH]; [reflexivity|].
  cbn [map]. rewrite H, IH. reflexivity.
Qed.

(** X20.  A mapping that is not empty and whose values are all scalars
    renders as one line per key, in the order of the mapping: the indent,
    the key as it is (a key is never quoted), a colon, a space and the
    scalar. *)
Theorem yaml_info_flat_mapping (kv : string * value) (rest : dict) (indent : nat) :
  Forall (fun kv => _is_scalar (snd kv) = true) (kv :: rest) ->
  yaml_info (VDict (kv :: rest)) indent
  = join nl (map (fun kv => spaces indent ++ fst kv ++ ": " ++ yaml_info (snd kv) 0)
                 (kv :: rest)).
Proof.
  intros H.
  rewrite <- (flat_map_scalar_values (spaces indent) indent _ H).
  reflexivity.
Qed.

Lemma yaml_info_flat_mapping_witness :
  yaml_info (VDict [("Status", VStr "Enabled"); ("MFADelete", VStr "Disabled")]) 2
  = join nl ["  Status: Enabled"; "  MFADelete: Disabled"].
Proof.
  apply (yaml_info_flat_mapping ("Status", VStr "Enabled")
           [("MFADelete", VStr "Disabled")] 2).
  repeat (apply Forall_cons; [reflexivity|]). apply Forall_nil.
Defined.

(** X21.  A sequence that is not empty and whose elements are all scalars
    renders as one line per element, in order: the indent, a dash, a
    space and the scalar. *)
Theorem yaml_info_flat_sequence (x : value) (rest : list value) (indent : nat) :
  Forall (fun x => _is_scalar x = true) (x :: rest) ->
  yaml_info (VList (x :: rest)) indent
  = join nl (map (fun item => spaces indent ++ "- " ++ yaml_info item 0)
                 (x :: rest)).
Proof.
  intros H.
  rewrite <- (map_scalar_items (spaces indent) indent _ H).
  reflexivity.
Qed.

Lemma yaml_info_flat_sequence_witness :
  yaml_info (VList [VStr "GET"; VStr "PUT"]) 4
  = join nl ["    - GET"; "    - PUT"].
Proof.
  apply (yaml_info_flat_sequence (VStr "GET") [VStr "PUT"] 4).
  repeat (apply Forall_cons; [reflexivity|]). apply Forall_nil.
Defined.

(** X22.  The section of a facet that is not configured, from the call to
    the output: a provider error whose code is a not-configured code, or
    whose status is 404, prints the separator, the title and the one
    line [status: not configured], whatever the post-processor of the
    facet and the message of the error. *)
Theorem not_configured_section (title : string) (fn : unit -> call_result)
    (post : option (dict -> value)) (e : ClientError) (out : list string) :
  fn tt = RaisesClientError e ->
  absent_facet e ->
  main_getter_step (title, fn, post) out
  = ((out ++ ["----"; (title ++ ":")%string; "  status: not configured"])%list,
     Done tt).
Proof.
  intros H A. unfold main_getter_step, bind, lift.
  rewrite (call_s3_getter_client_error _ _ _ _ H), classify_kind.
  apply absent_facet_iff in A. rewrite A.
  cbn [String.eqb]. simpl snd.
  apply print_section_prints.
Qed.

Lemma not_configured_section_witness :
  main_getter_step ("ObjectLock", fun _ => RaisesClientError unlisted_404, None) []
  = (["----"; "ObjectLock:"; "  status: not configured"], Done tt).
Proof.
  apply (not_configured_section "ObjectLock"
           (fun _ => RaisesClientError unlisted_404) None unlisted_404 []).
  - reflexivity.
  - right. reflexivity.
Defined.

(** X23.  The location section, from the call to the output: a response
    whose [LocationConstraint] is absent or false prints the one line
    [LocationConstraint: us-east-1]. *)
Theorem location_section_default (fn : unit -> call_result) (resp : dict)
    (out : list string) :
  fn tt = Returns resp ->
  truthy (get resp "LocationConstraint" VNone) = false ->
  main_getter_step ("Location", fn, Some normalize_location) out
  = ((out ++ ["----"; "Location:"; "  LocationConstraint: us-east-1"])%list,
     Done tt).
Proof.
  intros H T. unfold main_getter_step, bind, lift, call_s3_getter.
  rewrite H. simpl snd. rewrite print_section_prints.
  unfold normalize_location. now rewrite T.
Qed.

Lemma location_section_default_witness :
  main_getter_step
    ("Location", fun _ => Returns [("ResponseMetadata", VDict [])],
     Some normalize_location) []
  = (["----"; "Location:"; "  LocationConstraint: us-east-1"], Done tt).
Proof.
  apply (location_section_default
           (fun _ => Returns [("ResponseMetadata", VDict [])])
           [("ResponseMetadata", VDict [])] []);
    reflexivity.
Defined.

(** X24.  The policy section, from the call to the output, when the
    policy text cannot be decoded: a [Policy] string that is not empty
    and that the decoder rejects is printed on one line under its key,
    quoted by the rule of the emitter, and the other keys of the response
    are not printed. *)
Theorem policy_section_undecodable (json_loads : string -> option value)
    (fn : unit -> call_result) (resp : dict) (s : string) (out : list string) :
  fn tt = Returns resp ->
  lookup resp "Policy" = Some (VStr s) ->
  s <> EmptyString ->
  json_loads s = None ->
  main_getter_step ("Policy", fn, Some (parse_policy json_loads)) out
  = ((out ++ ["----"; "Policy:"; ("  Policy: " ++ _yaml_escape_str s)%string])%list,
     Done tt).
Proof.
  intros H L N J. unfold main_getter_step, bind, lift, call_s3_getter.
  rewrite H. simpl snd. rewrite print_section_prints.
  unfold parse_policy. rewrite (get_lookup _ _ _ _ L).
  apply truthy_str in N. rewrite N. simpl. now rewrite J.
Qed.

Lemma policy_section_undecodable_witness :
  main_getter_step
    ("Policy", fun _ => Returns [("Policy", VStr "{oops"); ("ResponseMetadata", VDict [])],
     Some (parse_policy loads)) []
  = (["----"; "Policy:"; "  Policy: '{oops'"], Done tt).
Proof.
  apply (policy_section_undecodable loads
           (fun _ => Returns [("Policy", VStr "{oops"); ("ResponseMetadata", VDict [])])
           [("Policy", VStr "{oops"); ("ResponseMetadata", VDict [])] "{oops" []).
  - reflexivity.
  - reflexivity.
  - discriminate.
  - reflexivity.
Defined.
